(** * CamemBERT CEFR notebook: a shallow embedding of [code/part_2.ipynb]

    The notebook fine-tunes a pretrained French language model on a
    dataset of sentences labelled with CEFR levels and exports the
    predictions for the test split.  This development embeds the code
    cells of the notebook: the collate function [tokenize_batch], the
    data loaders, the training cell with its two callbacks, the label
    tables and the cell that builds [preds.csv].

    Python values are modelled as follows: an [int] is a [Z], a [str] a
    [string], a row of the dataset (a [dict]) a [gmap string value], an
    insertion-ordered [dict] whose order is observed an association
    list, a one-dimensional integer tensor a [list Z], a two-dimensional
    one a [list (list Z)].  An exception is the [Raise] case of
    [result]. *)

From Stdlib Require Import ZArith QArith.
From stdpp Require Import base option list strings gmap.

#[local] Set Warnings "-clear-no-such-hyp".

Local Open Scope Z_scope.
Local Open Scope string_scope.
Local Open Scope list_scope.

(** ** Python values and exceptions *)

Inductive value : Type :=
  | VInt (z : Z)
  | VStr (s : string)
  | VNone.

#[global] Instance value_eq_dec : EqDecision value.
Proof. solve_decision. Defined.

Inductive exn : Type :=
  | KeyError (key : value)
  | IndexError
  | ValueError
  | TypeError
  | RuntimeError
  | FileNotFoundError
  | AttributeError (attr : string)
  | NameError (name : string).

Inductive result (A : Type) : Type :=
  | Ok (a : A)
  | Raise (e : exn).
Arguments Ok {A} a.
Arguments Raise {A} e.

#[global] Instance result_ret : MRet result := fun A a => Ok a.
#[global] Instance result_bind : MBind result := fun A B f m =>
  match m with
  | Ok a => f a
  | Raise e => Raise e
  end.
#[global] Instance result_fmap : FMap result := fun A B f m =>
  match m with
  | Ok a => Ok (f a)
  | Raise e => Raise e
  end.

(** A list comprehension whose body may raise: the elements are
    evaluated from left to right and the first exception escapes. *)
Fixpoint comprehension {A B : Type} (f : A -> result B) (l : list A)
  : result (list B) :=
  match l with
  | [] => Ok []
  | a :: l' =>
      match f a with
      | Ok b =>
          match comprehension f l' with
          | Ok bs => Ok (b :: bs)
          | Raise e => Raise e
          end
      | Raise e => Raise e
      end
  end.

(** ** Rows, datasets and the dataset dictionary *)

(** A row of a split, as the loader hands it to the collate function. *)
Abbreviation sample := (gmap string value).

(** [sample[key]] *)
Definition getitem (s : sample) (key : string) : result value :=
  match s !! key with
  | Some v => Ok v
  | None => Raise (KeyError (VStr key))
  end.

(** The cell of a row under a column name, [VNone] for a missing cell. *)
Definition field (key : string) (s : sample) : value :=
  default VNone (s !! key).

Record Dataset : Type := mkDataset {
  features : list string;
  rows : list sample
}.

(** [dataset[split][name]]: a column of a split. *)
Definition ds_column (ds : Dataset) (name : string) : list value :=
  map (field name) (rows ds).

(** The integers of the [int64] columns and tensors: a Python [int]
    outside this range is no element of either. *)
Definition is_int64 (z : Z) : Prop := - 2 ^ 63 <= z < 2 ^ 63.

#[global] Instance is_int64_dec (z : Z) : Decision (is_int64 z).
Proof. unfold is_int64. apply _. Defined.

(** A row with the three fields the notebook reads: a sentence that is
    a string, a label that is a 64-bit integer (the [label] column of
    the splits is an [int64] column) and a difficulty. *)
Definition is_cefr_sample (s : sample) : bool :=
  match s !! "sentence", s !! "label", s !! "difficulty" with
  | Some (VStr _), Some (VInt z), Some _ => bool_decide (is_int64 z)
  | _, _, _ => false
  end.

Definition sentence_text (s : sample) : string :=
  match field "sentence" s with VStr t => t | _ => "" end.

Definition label_id (s : sample) : Z :=
  match field "label" s with VInt z => z | _ => 0 end.

(** The value returned by [load_dataset]: split names to splits, in the
    order in which the loader lists them. *)
Definition DatasetDict : Type := list (string * Dataset).

Fixpoint dd_getitem (dd : DatasetDict) (split : string) : result Dataset :=
  match dd with
  | [] => Raise (KeyError (VStr split))
  | (k, ds) :: dd' => if decide (k = split) then Ok ds else dd_getitem dd' split
  end.

(** [dataset.values()] *)
Definition dd_values (dd : DatasetDict) : list Dataset := map snd dd.

(** ** Tensors *)

Abbreviation tensor1 := (list Z).
Abbreviation tensor2 := (list (list Z)).

(** [t.shape] of a two-dimensional tensor. *)
Definition shape (t : tensor2) : nat * nat :=
  (length t, match t with [] => 0%nat | r :: _ => length r end).

(** The element type [torch.tensor] infers for a flat list: the
    elements are visited from left to right; an [int] of any size is an
    integer, a string is refused with a [TypeError] and the type of
    [None] cannot be inferred, a [RuntimeError]. *)
Definition infer_scalar_type (l : list value) : result (list Z) :=
  comprehension (fun v => match v with
                          | VInt z => Ok z
                          | VStr _ => Raise TypeError
                          | VNone => Raise RuntimeError
                          end) l.

(** The elements are then stored as 64-bit integers: one that does not
    fit overflows, a [RuntimeError]. *)
Definition store_int64 (l : list Z) : result tensor1 :=
  comprehension (fun z => if decide (is_int64 z) then Ok z
                          else Raise RuntimeError) l.

(** [torch.tensor(l)] for a flat list.  The shape is computed first, by
    descending into the first element while it is a sequence: a string
    that is not empty is a sequence of such strings without end, a
    [ValueError] ('too many dimensions'), and an empty string ends the
    descent and is refused when the element type is inferred.  Then
    the element type is inferred and the elements are stored. *)
Definition torch_tensor (l : list value) : result tensor1 :=
  match l with
  | VStr s :: _ =>
      if decide (s = "") then Raise TypeError else Raise ValueError
  | _ => ints ← infer_scalar_type l; store_int64 ints
  end.

(** [torch.cat(ts, -1)] on the value of [trainer.predict], which is
    [None] where the loader gave no batch, and the list of the
    one-dimensional tensors of the batches otherwise.  [None] is no
    sequence of tensors, a [TypeError]; an empty list is refused with a
    [RuntimeError]. *)
Definition torch_cat (ts : option (list tensor1)) : result tensor1 :=
  match ts with
  | None => Raise TypeError
  | Some [] => Raise RuntimeError
  | Some ts => Ok (concat ts)
  end.

(** ** The tokenizer and the collate function *)

Record BatchEncoding : Type := mkBatchEncoding {
  enc_input_ids : tensor2;
  enc_attention_mask : tensor2
}.

Record Batch : Type := mkBatch {
  input_ids : tensor2;
  attention_mask : tensor2;
  labels : tensor1;
  str_labels : list value;
  sentences : list value
}.

Section Tokenizer.

(** The pretrained tokenizer is not part of the notebook.  Its
    vocabulary-dependent part, the encoding of one sentence into token
    ids (special tokens included), is a parameter, and so is the id of
    the padding token. *)
Variable encode : string -> list Z.
Variable pad_token_id : Z.

Definition longest (encs : list (list Z)) : nat :=
  foldr (fun e m => Nat.max (length e) m) 0%nat encs.

Definition pad_ids (width : nat) (e : list Z) : list Z :=
  e ++ replicate (width - length e) pad_token_id.

Definition pad_mask (width : nat) (e : list Z) : list Z :=
  replicate (length e) 1 ++ replicate (width - length e) 0.

(** [tokenizer(text, padding="longest", return_tensors="pt")]: every
    element of [text] must be a string; no truncation is requested;
    every row is padded on the right to the longest encoding of the
    batch and the attention mask marks the padding with 0.  The call
    fails on an empty list.  The check of the argument looks at the
    first element only and raises a [ValueError] when it is no string;
    a later element that is no string is refused by the encoder, with a
    [TypeError]. *)
Definition tokenizer (text : list value) : result BatchEncoding :=
  match text with
  | [] => Raise IndexError
  | VInt _ :: _ | VNone :: _ => Raise ValueError
  | VStr _ :: _ =>
      encs ← comprehension
               (fun v => match v with
                         | VStr s => Ok (encode s)
                         | _ => Raise TypeError
                         end) text;
      let width := longest encs in
      mret {| enc_input_ids := map (pad_ids width) encs;
              enc_attention_mask := map (pad_mask width) encs |}
  end.

Definition tokenize_batch (samples : list sample) : result Batch :=
  text ← comprehension (fun s => getitem s "sentence") samples;
  label_list ← comprehension (fun s => getitem s "label") samples;
  labels ← torch_tensor label_list;
  str_labels ← comprehension (fun s => getitem s "difficulty") samples;
  tokens ← tokenizer text;
  mret {| input_ids := enc_input_ids tokens;
          attention_mask := enc_attention_mask tokens;
          labels := labels;
          str_labels := str_labels;
          sentences := text |}.

End Tokenizer.

(** ** Data loaders *)

Record DataLoader : Type := mkDataLoader {
  dl_dataset : Dataset;
  batch_size : nat;
  shuffle : bool;
  collate_fn : list sample -> result Batch
}.

(** The batch sampler of the loader with its default [drop_last=False]:
    indices are appended to the current batch, a full batch is yielded
    and a new one started, and a last partial batch is yielded when it
    is not empty. *)
Fixpoint batch_sampler (size : nat) (batch : list nat) (indices : list nat)
  : list (list nat) :=
  match indices with
  | [] => if decide (0 < length batch)%nat then [batch] else []
  | idx :: rest =>
      let batch' := batch ++ [idx] in
      if decide (length batch' = size)
      then batch' :: batch_sampler size [] rest
      else batch_sampler size batch' rest
  end.

(** [dataset[idx]] *)
Definition ds_getitem (ds : Dataset) (idx : nat) : result sample :=
  match rows ds !! idx with
  | Some s => Ok s
  | None => Raise IndexError
  end.

Section Loader.

(** [randperm draw n] is the permutation of [0 .. n-1] that the random
    sampler of a shuffling loader draws at its [draw]-th iteration. *)
Variable randperm : nat -> nat -> list nat.

Definition sampler (draw : nat) (dl : DataLoader) : list nat :=
  let n := length (rows (dl_dataset dl)) in
  if shuffle dl then randperm draw n else seq 0 n.

(** One pass over a loader: the batches in the order they are yielded. *)
Definition dl_iter (draw : nat) (dl : DataLoader) : result (list Batch) :=
  comprehension
    (fun batch =>
       samples ← comprehension (ds_getitem (dl_dataset dl)) batch;
       collate_fn dl samples)
    (batch_sampler (batch_size dl) [] (sampler draw dl)).

(** The first [n] batches of a pass, for a reader that stops there: the
    later batches are not fetched. *)
Definition dl_iter_first (n : nat) (draw : nat) (dl : DataLoader)
  : result (list Batch) :=
  comprehension
    (fun batch =>
       samples ← comprehension (ds_getitem (dl_dataset dl)) batch;
       collate_fn dl samples)
    (take n (batch_sampler (batch_size dl) [] (sampler draw dl))).

End Loader.

(** ** Data frames *)

Record DataFrame : Type := mkDataFrame {
  df_index_name : option string;
  df_index : list Z;
  df_columns : list (string * list value);
  df_attrs : list (string * list value)
}.

(** [range(n)] *)
Definition range (n : nat) : list Z := map Z.of_nat (seq 0 n).

(** [split.to_pandas()]: one column per feature, in the order of the
    features, under a fresh range index without a name. *)
Definition to_pandas (ds : Dataset) : DataFrame :=
  {| df_index_name := None;
     df_index := range (length (rows ds));
     df_columns := map (fun name => (name, ds_column ds name)) (features ds);
     df_attrs := [] |}.

Definition column_names (df : DataFrame) : list string :=
  map fst (df_columns df).

Definition has_column (df : DataFrame) (name : string) : bool :=
  bool_decide (name ∈ column_names df).

Fixpoint assoc {A : Type} (key : string) (l : list (string * A)) : option A :=
  match l with
  | [] => None
  | (k, a) :: l' => if decide (k = key) then Some a else assoc key l'
  end.

(** [df[name]] *)
Definition df_getitem (df : DataFrame) (name : string) : result (list value) :=
  match assoc name (df_columns df) with
  | Some col => Ok col
  | None => Raise (KeyError (VStr name))
  end.

(** [df.name = vals], as the last cell uses it: [name] is no attribute
    of the frame class ([label] and [difficulty] are none; an
    assignment to [columns] or [index] is another operation), and
    [vals] is an array, or a series over the index of the frame itself,
    whose values are taken position by position as those of an array.
    An existing column is overwritten, and the values must be as many
    as the rows (a frame without rows is not extended); for a name
    that is no column the frame keeps the values as a plain attribute
    and its columns do not change. *)
Definition df_setattr (df : DataFrame) (name : string) (vals : list value)
  : result DataFrame :=
  if has_column df name then
    if decide (length vals = length (df_index df)) then
      Ok {| df_index_name := df_index_name df;
            df_index := df_index df;
            df_columns :=
              map (fun c => if decide (c.1 = name) then (name, vals) else c)
                  (df_columns df);
            df_attrs := df_attrs df |}
    else Raise ValueError
  else
    Ok {| df_index_name := df_index_name df;
          df_index := df_index df;
          df_columns := df_columns df;
          df_attrs := (name, vals) :: df_attrs df |}.

(** The receiver of [df.name.apply(...)]: a column is a series and has
    [apply]; a plain attribute holding an array has not. *)
Definition df_series (df : DataFrame) (name : string) : result (list value) :=
  match assoc name (df_attrs df) with
  | Some _ => Raise (AttributeError "apply")
  | None =>
      match assoc name (df_columns df) with
      | Some col => Ok col
      | None => Raise (AttributeError name)
      end
  end.

(** [df.index.name = name] *)
Definition df_set_index_name (df : DataFrame) (name : string) : DataFrame :=
  {| df_index_name := Some name;
     df_index := df_index df;
     df_columns := df_columns df;
     df_attrs := df_attrs df |}.

(** [df.drop(columns=names, inplace=True)]: every name must be a
    column. *)
Definition df_drop (df : DataFrame) (names : list string) : result DataFrame :=
  match filter (fun name => name ∉ column_names df) names with
  | missing :: _ => Raise (KeyError (VStr missing))
  | [] =>
      Ok {| df_index_name := df_index_name df;
            df_index := df_index df;
            df_columns := filter (fun c => c.1 ∉ names) (df_columns df);
            df_attrs := df_attrs df |}
  end.

(** The cells of a written file: a header line, then one line per row
    of the frame. *)
Definition csv : Type := list (list value).

Definition df_row (df : DataFrame) (i : nat) : list value :=
  map (fun c => default VNone (c.2 !! i)) (df_columns df).

(** [df.to_csv(path)]: the header holds the name of the index (empty
    when it has none) and the column names; each line holds the index
    value of a row and its cells. *)
Definition to_csv (df : DataFrame) : csv :=
  (VStr (default "" (df_index_name df)) :: map VStr (column_names df))
  :: imap (fun i idx => VInt idx :: df_row df i) (df_index df).

(** [series.unique()]: the distinct values in order of first
    appearance. *)
Fixpoint unique_from (seen : list value) (l : list value) : list value :=
  match l with
  | [] => []
  | v :: l' =>
      if decide (v ∈ seen) then unique_from seen l'
      else v :: unique_from (v :: seen) l'
  end.

Definition unique (l : list value) : list value := unique_from [] l.

(** ** Label tables *)

(** [d[k] = v] on an insertion-ordered dictionary. *)
Fixpoint dict_set {K V : Type} `{EqDecision K} (d : list (K * V)) (k : K) (v : V)
  : list (K * V) :=
  match d with
  | [] => [(k, v)]
  | (k', v') :: d' =>
      if decide (k' = k) then (k', v) :: d' else (k', v') :: dict_set d' k v
  end.

(** [dict(pairs)] *)
Definition dict {K V : Type} `{EqDecision K} (pairs : list (K * V)) : list (K * V) :=
  foldl (fun d kv => dict_set d kv.1 kv.2) [] pairs.

Definition ID_TO_LABEL : list (Z * string) :=
  dict (zip (range 6) ["A1"; "A2"; "B1"; "B2"; "C1"; "C2"]).

(** [list(ID_TO_LABEL.values())] *)
Definition label_names : list string := map snd ID_TO_LABEL.

(** [l[i]] on a list: a negative index counts from the end. *)
Definition list_getitem {A : Type} (l : list A) (i : Z) : result A :=
  let n := Z.of_nat (length l) in
  let j := if decide (i < 0) then i + n else i in
  if decide (0 <= j < n) then
    match l !! Z.to_nat j with
    | Some a => Ok a
    | None => Raise IndexError
    end
  else Raise IndexError.

(** [ID_TO_LABEL[x]] *)
Definition id_to_label (x : Z) : result string :=
  match list_find (fun kv => kv.1 = x) ID_TO_LABEL with
  | Some (_, kv) => Ok kv.2
  | None => Raise (KeyError (VInt x))
  end.

(** [series.apply(f)] *)
Definition series_apply (f : value -> result value) (s : list value)
  : result (list value) :=
  comprehension f s.

(** [lambda x: label_names[x]] *)
Definition difficulty_of (x : value) : result value :=
  match x with
  | VInt z => VStr <$> list_getitem label_names z
  | _ => Raise TypeError
  end.

(** ** The training loop and its callbacks *)

(** The trainer and its two callbacks belong to the training library;
    the notebook only configures them.  They are modelled here from
    their documented behaviour, with the defaults the notebook leaves in
    place: no minimal improvement for early stopping, a single best
    checkpoint kept. *)

Inductive Mode : Type := Max | Min.

(** The comparison a callback uses to decide that the monitored value
    improved: strictly greater in mode [max], strictly smaller in mode
    [min]. *)
Definition monitor_op (mode : Mode) (current best : Q) : bool :=
  match mode with
  | Max => negb (Qle_bool current best)
  | Min => negb (Qle_bool best current)
  end.

Record EarlyStopping : Type := mkEarlyStopping {
  es_monitor : string;
  es_patience : nat;
  es_mode : Mode;
  es_wait_count : nat;
  es_best_score : option Q
}.

(** The check run after each validation: an improvement resets the
    counter, anything else increments it, and training is asked to stop
    once the counter reaches the patience.  The monitored metric must
    have been logged. *)
Definition es_on_validation_end (es : EarlyStopping) (metrics : gmap string Q)
  : result (EarlyStopping * bool) :=
  match metrics !! es_monitor es with
  | None => Raise RuntimeError
  | Some current =>
      let improved :=
        match es_best_score es with
        | None => true
        | Some best => monitor_op (es_mode es) current best
        end in
      if improved then
        Ok ({| es_monitor := es_monitor es; es_patience := es_patience es;
               es_mode := es_mode es; es_wait_count := 0;
               es_best_score := Some current |}, false)
      else
        let wait := S (es_wait_count es) in
        Ok ({| es_monitor := es_monitor es; es_patience := es_patience es;
               es_mode := es_mode es; es_wait_count := wait;
               es_best_score := es_best_score es |},
            bool_decide (es_patience es <= wait)%nat)
  end.

Section Training.

(** The model class lives in a module of its own that the notebook
    imports; its constructor, one epoch of optimisation, the metrics it
    logs at the end of a validation pass and its prediction step are
    parameters. *)
Variable Model : Type.
Variable LightningModel : string -> nat -> Q -> Q -> Model.
Variable training_epoch : Model -> list Batch -> Model.
Variable validation_epoch : Model -> list Batch -> gmap string Q.
Variable predict_step : Model -> Batch -> tensor1.

Variable encode : string -> list Z.
Variable pad_token_id : Z.
Variable randperm : nat -> nat -> list nat.

(** The checkpoint callback with its default [save_top_k=1]:
    [mc_best_model_path] stands for the file the path names, and is
    [None] as long as nothing was saved. *)
Record ModelCheckpoint : Type := mkModelCheckpoint {
  mc_monitor : string;
  mc_mode : Mode;
  mc_best_model_score : option Q;
  mc_best_model_path : option Model
}.

Definition mc_on_validation_end (mc : ModelCheckpoint)
  (metrics : gmap string Q) (m : Model) : result ModelCheckpoint :=
  match metrics !! mc_monitor mc with
  | None => Raise RuntimeError
  | Some current =>
      let save :=
        match mc_best_model_score mc with
        | None => true
        | Some best => monitor_op (mc_mode mc) current best
        end in
      if save then
        Ok {| mc_monitor := mc_monitor mc; mc_mode := mc_mode mc;
              mc_best_model_score := Some current;
              mc_best_model_path := Some m |}
      else Ok mc
  end.

Record Trainer : Type := mkTrainer {
  max_epochs : nat;
  gpus : nat;
  early_stopping : EarlyStopping;
  checkpoint : ModelCheckpoint
}.

(** The check the trainer makes before the first epoch, with its
    default of two steps: the first two batches of the validation
    loader are read and validated.  What the model logs there is
    dropped and the callbacks are not called, so only an exception of
    the loader shows.  A shuffling loader draws there the permutation
    numbered 0, as in the first epoch. *)
Definition sanity_check (val_dl : DataLoader) : result unit :=
  _ ← dl_iter_first randperm 2 0 val_dl;
  mret tt.

(** One epoch: a pass over the training loader, then a validation
    pass. *)
Definition run_epoch (train_dl val_dl : DataLoader) (epoch : nat) (m : Model)
  : result (Model * gmap string Q) :=
  train_batches ← dl_iter randperm epoch train_dl;
  let m' := training_epoch m train_batches in
  val_batches ← dl_iter randperm epoch val_dl;
  mret (m', validation_epoch m' val_batches).

Fixpoint fit_loop (train_dl val_dl : DataLoader) (remaining epoch : nat)
  (m : Model) (es : EarlyStopping) (mc : ModelCheckpoint)
  : result (Model * (EarlyStopping * ModelCheckpoint)) :=
  match remaining with
  | O => Ok (m, (es, mc))
  | S remaining' =>
      '(m', metrics) ← run_epoch train_dl val_dl epoch m;
      '(es', stop) ← es_on_validation_end es metrics;
      mc' ← mc_on_validation_end mc metrics m';
      if stop : bool then Ok (m', (es', mc'))
      else fit_loop train_dl val_dl remaining' (S epoch) m' es' mc'
  end.

(** [trainer.fit(model, train_dataloaders=..., val_dataloaders=...)]:
    the validation loader is checked first, then the epochs run; the
    model and the callbacks are updated in place. *)
Definition trainer_fit (trainer : Trainer) (m : Model)
  (train_dl val_dl : DataLoader) : result (Trainer * Model) :=
  _ ← sanity_check val_dl;
  '(m', (es, mc)) ← fit_loop train_dl val_dl (max_epochs trainer) 0
                      m (early_stopping trainer) (checkpoint trainer);
  mret ({| max_epochs := max_epochs trainer; gpus := gpus trainer;
           early_stopping := es; checkpoint := mc |}, m').

(** [LightningModel.load_from_checkpoint(checkpoint_path=path)] *)
Definition load_from_checkpoint (path : option Model) : result Model :=
  match path with
  | Some m => Ok m
  | None => Raise FileNotFoundError
  end.

(** [trainer.predict(model, dataloaders=dl)]: the outputs of the
    prediction step, one per batch, in the order of the batches; [None]
    when the loader gives no batch. *)
Definition trainer_predict (draw : nat) (m : Model) (dl : DataLoader)
  : result (option (list tensor1)) :=
  batches ← dl_iter randperm draw dl;
  mret (match batches with
        | [] => None
        | _ => Some (map (predict_step m) batches)
        end).

(** ** The cells of the notebook *)

(** The three names bound from [dataset.values()]. *)
Definition unpack_splits (dataset : DatasetDict)
  : result (Dataset * Dataset * Dataset) :=
  match dd_values dataset with
  | [train_dataset; test_dataset; val_dataset] =>
      Ok (train_dataset, test_dataset, val_dataset)
  | _ => Raise ValueError
  end.

Definition pd_dataset (dataset : DatasetDict) : list (string * DataFrame) :=
  map (fun kv => (kv.1, to_pandas kv.2)) dataset.

Definition num_labels (dataset : DatasetDict) : result nat :=
  match assoc "train" (pd_dataset dataset) with
  | None => Raise (KeyError (VStr "train"))
  | Some df =>
      label ← df_getitem df "label";
      mret (length (unique label))
  end.

Definition collate : list sample -> result Batch :=
  tokenize_batch encode pad_token_id.

Definition train_dataloader (dataset : DatasetDict) : result DataLoader :=
  split ← dd_getitem dataset "train";
  mret {| dl_dataset := split; batch_size := 16; shuffle := true;
          collate_fn := collate |}.

Definition val_dataloader (dataset : DatasetDict) : result DataLoader :=
  split ← dd_getitem dataset "validation";
  mret {| dl_dataset := split; batch_size := 16; shuffle := false;
          collate_fn := collate |}.

Definition test_dataloader (dataset : DatasetDict) : result DataLoader :=
  split ← dd_getitem dataset "test";
  mret {| dl_dataset := split; batch_size := 16; shuffle := false;
          collate_fn := collate |}.

Definition lr : Q := 3e-5.

Definition weight_decay : Q := 2 # 1.

Definition model_checkpoint : ModelCheckpoint :=
  {| mc_monitor := "valid/acc"; mc_mode := Max;
     mc_best_model_score := None; mc_best_model_path := None |}.

Definition camembert_trainer : Trainer :=
  {| max_epochs := 25;
     gpus := 1;
     early_stopping :=
       {| es_monitor := "valid/acc"; es_patience := 4; es_mode := Max;
          es_wait_count := 0; es_best_score := None |};
     checkpoint := model_checkpoint |}.

(** The training cell: the trainer after [fit], and the model bound to
    [lightning_model] when the cell ends. *)
Definition training_cell (num_labels : nat) (train_dl val_dl : DataLoader)
  : result (Trainer * Model) :=
  let lightning_model := LightningModel "camembert-base" num_labels lr weight_decay in
  '(trainer, _) ← trainer_fit camembert_trainer lightning_model train_dl val_dl;
  lightning_model ← load_from_checkpoint (mc_best_model_path (checkpoint trainer));
  mret (trainer, lightning_model).

(** [camembert_preds]: the predictions on the validation split. *)
Definition camembert_preds (lightning_model : Model) (val_dl : DataLoader)
  : result tensor1 :=
  preds ← trainer_predict 0 lightning_model val_dl;
  torch_cat preds.

(** The frame written by the last cell, from the test split and the
    concatenated predictions. *)
Definition test_df (test : Dataset) (preds : tensor1) : result DataFrame :=
  let test_df := to_pandas test in
  test_df ← df_setattr test_df "label" (map VInt preds);
  label ← df_series test_df "label";
  difficulty ← series_apply difficulty_of label;
  test_df ← df_setattr test_df "difficulty" difficulty;
  let test_df := df_set_index_name test_df "id" in
  df_drop test_df ["sentence"; "label"].

(** The last cell: the content of [preds.csv]. *)
Definition submission (lightning_model : Model) (dataset : DatasetDict)
  : result csv :=
  test_dl ← test_dataloader dataset;
  preds ← trainer_predict 0 lightning_model test_dl;
  preds ← torch_cat preds;
  test ← dd_getitem dataset "test";
  test_df ← test_df test preds;
  mret (to_csv test_df).

Record Outputs : Type := mkOutputs {
  out_num_labels : nat;
  out_lightning_model : Model;
  out_camembert_preds : tensor1;
  out_preds_csv : csv
}.

(** The data flow between the cells that bind something a later cell
    reads, in the order of the notebook.  The cells that only display
    something (histograms, row counts, the confusion matrix, the
    classification report, the table of wrong predictions) are left
    out, and with them the exceptions they raise: this is not the
    outcome of running every cell in order, which [Names.run_all]
    below shows to stop at the table of wrong predictions. *)
Definition notebook (dataset : DatasetDict) : result Outputs :=
  _ ← unpack_splits dataset;
  num_labels ← num_labels dataset;
  train_dl ← train_dataloader dataset;
  val_dl ← val_dataloader dataset;
  '(_, lightning_model) ← training_cell num_labels train_dl val_dl;
  camembert_preds ← camembert_preds lightning_model val_dl;
  preds_csv ← submission lightning_model dataset;
  mret {| out_num_labels := num_labels;
          out_lightning_model := lightning_model;
          out_camembert_preds := camembert_preds;
          out_preds_csv := preds_csv |}.

End Training.

(** ** The confusion matrix *)

(** The number of positions at which the true label is [i] and the
    predicted one [j]. *)
Definition count_pairs (y_true y_pred : list Z) (i j : Z) : Z :=
  Z.of_nat (length (filter (fun tp => tp = (i, j)) (zip y_true y_pred))).

(** [confusion_matrix(y_true, y_pred, labels=labels)] of the metrics
    library, from its documented behaviour: the two sequences must have
    the same length, [labels] must not be empty, and when there are
    samples at least one true label must be among [labels]; the cell of
    row [i] and column [j] counts the samples whose true label is the
    i-th of [labels] and whose prediction is the j-th, and a sample with
    a label or a prediction outside [labels] is counted nowhere. *)
Definition confusion_matrix (y_true y_pred labels : list Z)
  : result (list (list Z)) :=
  if decide (length y_true = length y_pred) then
    match labels with
    | [] => Raise ValueError
    | _ =>
        if decide (y_true <> [] /\ Forall (fun t => t ∉ labels) y_true)
        then Raise ValueError
        else Ok (map (fun i => map (count_pairs y_true y_pred i) labels) labels)
    end
  else Raise ValueError.

Definition sum_Z (l : list Z) : Z := foldr Z.add 0 l.

(** [normalize="true"]: every row is divided by its sum, and a row
    without samples stays at zero. *)
Definition normalize_row (row : list Z) : list Q :=
  map (fun c => if decide (sum_Z row = 0) then 0%Q
                else (inject_Z c / inject_Z (sum_Z row))%Q) row.

Definition confusion_matrix_normalized (y_true y_pred labels : list Z)
  : result (list (list Q)) :=
  map normalize_row <$> confusion_matrix y_true y_pred labels.

(** What the heat map draws: the colour of each cell, the number
    written in it, and the tick labels of the two axes. *)
Record Heatmap : Type := mkHeatmap {
  hm_data : list (list Q);
  hm_annot : list (list Z);
  hm_xticklabels : list string;
  hm_yticklabels : list string
}.

(** [sns.heatmap(data, annot=annot, ...)]: the annotations must have the
    shape of the data. *)
Definition heatmap (data : list (list Q)) (annot : list (list Z))
    (xticklabels yticklabels : list string) : result Heatmap :=
  if decide (map length data = map length annot) then
    Ok {| hm_data := data; hm_annot := annot;
          hm_xticklabels := xticklabels; hm_yticklabels := yticklabels |}
  else Raise ValueError.

Definition plot_confusion_matrix (labels preds : list Z) (label_names : list string)
  : result Heatmap :=
  confusion_norm ← confusion_matrix_normalized labels preds
                     (range (length label_names));
  confusion ← confusion_matrix labels preds (range (length label_names));
  heatmap confusion_norm confusion label_names label_names.

(** ** Name binding across the cells *)

Module Names.

(** A statement of a cell, reduced to the global names it reads, in
    the order in which they are evaluated, and the names it binds.
    Names bound inside an expression (the parameter of a [lambda], the
    variable of a comprehension) and the locals of a function are not
    global reads.  A [def] binds its name; the globals its body reads
    are looked up when the function is used. *)
Inductive stmt : Type :=
  | Import (name : string)
  | Def (name : string) (globals : list string)
  | Assign (targets : list string) (reads : list string)
  | Expr (reads : list string).

Definition cell : Type := list stmt.

Record Env : Type := mkEnv {
  bound : list string;
  functions : list (string * list string)
}.

Definition builtins : list string :=
  ["len"; "print"; "list"; "dict"; "zip"; "range"].

Definition fresh_kernel : Env := {| bound := builtins; functions := [] |}.

Definition lookup_name (env : Env) (name : string) : result unit :=
  if bool_decide (name ∈ bound env) then Ok tt else Raise (NameError name).

(** Reading a name; reading a function defined in the notebook also
    reads the globals of its body. *)
Definition read (env : Env) (name : string) : result unit :=
  _ ← lookup_name env name;
  match assoc name (functions env) with
  | Some globals => _ ← comprehension (lookup_name env) globals; mret tt
  | None => mret tt
  end.

Definition bind (env : Env) (names : list string) : Env :=
  {| bound := names ++ bound env; functions := functions env |}.

Definition exec_stmt (env : Env) (s : stmt) : result Env :=
  match s with
  | Import name => Ok (bind env [name])
  | Def name globals =>
      Ok {| bound := name :: bound env;
            functions := (name, globals) :: functions env |}
  | Assign targets reads =>
      _ ← comprehension (read env) reads; mret (bind env targets)
  | Expr reads =>
      _ ← comprehension (read env) reads; mret env
  end.

Fixpoint exec_cell (env : Env) (c : cell) : result Env :=
  match c with
  | [] => Ok env
  | s :: c' => env' ← exec_stmt env s; exec_cell env' c'
  end.

Inductive outcome : Type :=
  | Completed (env : Env)
  | Stopped (cell_index : nat) (e : exn).

(** Running the cells once, in order, from the cell numbered [i]: the
    run stops at the first cell that raises. *)
Fixpoint run_cells (i : nat) (env : Env) (cells : list cell) : outcome :=
  match cells with
  | [] => Completed env
  | c :: cells' =>
      match exec_cell env c with
      | Ok env' => run_cells (S i) env' cells'
      | Raise e => Stopped i e
      end
  end.

Definition cell_imports : cell :=
  [ Import "pd"; Import "AutoTokenizer"; Import "load_dataset"; Import "sns";
    Import "torch"; Import "DataLoader"; Import "functools";
    Import "LightningModel"; Import "pl"; Import "confusion_matrix";
    Import "plt"; Import "classification_report";
    Def "tokenize_batch" ["torch"];
    Def "plot_confusion_matrix"
        ["confusion_matrix"; "list"; "range"; "len"; "plt"; "sns"] ].

Definition cell_load : cell :=
  [ Assign ["tokenizer"] ["AutoTokenizer"];
    Assign ["dataset"] ["load_dataset"];
    Assign ["pd_dataset"] ["dataset"];
    Assign ["train_dataset"; "test_dataset"; "val_dataset"] ["dataset"];
    Assign ["num_labels"] ["len"; "pd_dataset"] ].

Definition cell_label_histogram : cell :=
  [ Expr ["sns"];
    Assign ["nb_labels"] ["len"; "pd_dataset"];
    Expr ["print"; "nb_labels"];
    Assign ["ax"] ["pd_dataset"; "nb_labels"];
    Expr ["ax"]; Expr ["ax"]; Expr ["ax"]; Expr ["ax"] ].

Definition cell_length_histogram : cell :=
  [ Expr ["pd_dataset"; "len"; "pd_dataset"];
    Assign ["ax"] ["pd_dataset"];
    Expr ["ax"]; Expr ["ax"]; Expr ["ax"]; Expr ["ax"] ].

Definition cell_counts : cell :=
  [ Expr ["print"; "pd_dataset"];
    Expr ["print"; "train_dataset"];
    Expr ["print"; "test_dataset"];
    Expr ["print"; "val_dataset"] ].

Definition cell_dataloaders : cell :=
  [ Assign ["train_dataloader"]
      ["DataLoader"; "dataset"; "functools"; "tokenize_batch"; "tokenizer"];
    Assign ["val_dataloader"]
      ["DataLoader"; "dataset"; "functools"; "tokenize_batch"; "tokenizer"] ].

Definition cell_training : cell :=
  [ Assign ["lightning_model"] ["LightningModel"; "num_labels"];
    Assign ["model_checkpoint"] ["pl"];
    Assign ["camembert_trainer"] ["pl"; "pl"; "model_checkpoint"];
    Expr ["camembert_trainer"; "lightning_model"; "train_dataloader";
          "val_dataloader"];
    Assign ["lightning_model"] ["LightningModel"; "model_checkpoint"] ].

Definition cell_predictions : cell :=
  [ Assign ["ID_TO_LABEL"] ["dict"; "zip"; "range"];
    Assign ["label_names"] ["list"; "ID_TO_LABEL"];
    Assign ["camembert_preds"]
      ["camembert_trainer"; "lightning_model"; "val_dataloader"];
    Assign ["camembert_preds"] ["torch"; "camembert_preds"] ].

Definition cell_confusion_matrix : cell :=
  [ Expr ["plot_confusion_matrix"; "dataset"; "camembert_preds"; "label_names"] ].

Definition cell_report : cell :=
  [ Expr ["print"; "classification_report"; "dataset"; "camembert_preds";
          "label_names"] ].

Definition cell_wrong_predictions : cell :=
  [ Assign ["wrong_preds"] ["camembert_preds"; "np"; "dataset"];
    Assign ["wrong"] ["dataset"; "wrong_preds"];
    Assign ["preds"] ["pd"; "camembert_preds"; "wrong_preds"; "ID_TO_LABEL"];
    Expr ["preds"; "wrong"];
    Expr ["wrong"];
    Expr ["wrong"] ].

Definition cell_submission : cell :=
  [ Assign ["test_dataloader"]
      ["DataLoader"; "dataset"; "functools"; "tokenize_batch"; "tokenizer"];
    Assign ["preds"] ["camembert_trainer"; "lightning_model"; "test_dataloader"];
    Assign ["preds"] ["torch"; "preds"];
    Assign ["test_df"] ["dataset"];
    Expr ["preds"; "test_df"];
    Expr ["test_df"; "label_names"; "test_df"];
    Expr ["test_df"];
    Expr ["test_df"];
    Expr ["test_df"] ].

(** The code cells of the notebook, in order. *)
Definition cells : list cell :=
  [ cell_imports; cell_load; cell_label_histogram; cell_length_histogram;
    cell_counts; cell_dataloaders; cell_training; cell_predictions;
    cell_confusion_matrix; cell_report; cell_wrong_predictions;
    cell_submission ].

Definition run_all : outcome := run_cells 0 fresh_kernel cells.

(** The same notebook with [import numpy as np] added to the first
    cell. *)
Definition cells_with_numpy : list cell :=
  (Import "np" :: cell_imports) :: tail cells.

End Names.

(** ** Auxiliary definitions for the statements *)

(** The encodings of the sentences of a list of samples. *)
Definition encodings (encode : string -> list Z) (samples : list sample)
  : list (list Z) :=
  map (fun s => encode (sentence_text s)) samples.

(** The batch [tokenize_batch] builds from well-formed samples. *)
Definition collated (encode : string -> list Z) (pad : Z) (samples : list sample)
  : Batch :=
  {| input_ids :=
       map (pad_ids pad (longest (encodings encode samples)))
           (encodings encode samples);
     attention_mask :=
       map (pad_mask (longest (encodings encode samples)))
           (encodings encode samples);
     labels := map label_id samples;
     str_labels := map (field "difficulty") samples;
     sentences := map (field "sentence") samples |}.

(** The rows of a split at a list of indices. *)
Definition fetch (ds : Dataset) (batch : list nat) : list sample :=
  map (fun i => rows ds !!! i) batch.

(** A row built from its three fields. *)
Definition sample_of (sentence : string) (label : Z) (difficulty : string) : sample :=
  {[ "sentence" := VStr sentence; "label" := VInt label;
     "difficulty" := VStr difficulty ]}.

(** The rows of a split cut into consecutive groups the way a loader
    that does not shuffle batches them. *)
Definition chunks (size : nat) (ds : Dataset) : list (list sample) :=
  map (fetch ds) (batch_sampler size [] (seq 0 (length (rows ds)))).

(** The name of the CEFR level with a given id. *)
Definition level_name (p : Z) : string :=
  nth (Z.to_nat p) ["A1"; "A2"; "B1"; "B2"; "C1"; "C2"] "".

(** Named columns computed from their names. *)
Definition columns_of (names : list string) (f : string -> list value)
  : list (string * list value) :=
  map (fun name => (name, f name)) names.

(** The columns of a split that the last cell keeps. *)
Definition kept_columns (ds : Dataset) : list string :=
  filter (fun name => name ∉ ["sentence"; "label"]) (features ds).

(** The cell of a kept column in the exported frame, for a row of the
    test split and the label predicted for it. *)
Definition submitted_cell (s : sample) (p : Z) (name : string) : value :=
  if decide (name = "difficulty") then VStr (level_name p) else field name s.

(** The frame the last cell exports. *)
Definition submitted_df (test : Dataset) (preds : tensor1) : DataFrame :=
  {| df_index_name := Some "id";
     df_index := range (length (rows test));
     df_columns :=
       columns_of (kept_columns test)
         (fun name =>
            if decide (name = "difficulty")
            then map (fun p => VStr (level_name p)) preds
            else ds_column test name);
     df_attrs := [] |}.

(** A line of the exported file. *)
Definition submitted_line (names : list string) (i : nat) (s : sample) (p : Z)
  : list value :=
  VInt (Z.of_nat i) :: map (submitted_cell s p) names.

(** The cell of a line of a file under a column of its header. *)
Fixpoint cell_under (header line : list value) (name : string) : option value :=
  match header, line with
  | h :: header', c :: line' =>
      if decide (h = VStr name) then Some c else cell_under header' line' name
  | _, _ => None
  end.

(** The predictions for a split read in order in batches of [size]. *)
Definition predictions {Model : Type} (predict_step : Model -> Batch -> tensor1)
    (encode : string -> list Z) (pad : Z) (m : Model) (size : nat) (ds : Dataset)
  : tensor1 :=
  concat (map (fun c => predict_step m (collated encode pad c)) (chunks size ds)).

(** ** A small instance *)

(** Three small splits, a toy tokenizer that maps every character to
    the same token, a prediction step that reads the label id off the
    stored label, whatever the model, and a sampler that reverses the
    indices. *)
Definition toy_encode (s : string) : list Z :=
  map (fun _ => 5) (String.list_ascii_of_string s).

Definition toy_predict_step {M : Type} (m : M) (b : Batch) : tensor1 :=
  map (fun z => z `mod` 6) (labels b).

Definition toy_randperm (draw n : nat) : list nat := rev (seq 0 n).

Definition toy_test : Dataset :=
  {| features := ["sentence"; "difficulty"; "label"];
     rows := [ sample_of "Bonjour" 2 "A1"; sample_of "Oui" 0 "A1" ] |}.

Definition toy_validation : Dataset :=
  {| features := ["sentence"; "difficulty"; "label"];
     rows := [ sample_of "Merci" 1 "A2" ] |}.

Definition toy_train : Dataset :=
  {| features := ["sentence"; "difficulty"; "label"];
     rows := [ sample_of "Salut" 0 "A1"; sample_of "Au revoir" 1 "A2";
               sample_of "Non" 0 "A1" ] |}.

Definition toy_dataset : DatasetDict :=
  [ ("train", toy_train); ("test", toy_test); ("validation", toy_validation) ].

(** A test split with one more column than the notebook reads. *)
Definition wide_test : Dataset :=
  {| features := ["sentence"; "difficulty"; "label"; "source"];
     rows := [ <["source" := VStr "web"]> (sample_of "Bonjour" 0 "A1");
               <["source" := VStr "book"]> (sample_of "Oui" 0 "A1") ] |}.

(** The toy splits listed in the order train, validation, test. *)
Definition reordered_dataset : DatasetDict :=
  [ ("train", toy_train); ("validation", toy_validation); ("test", toy_test) ].




(** A toy model: the number of epochs it was trained for, with an
    accuracy that peaks after the second epoch. *)
Definition toy_accuracy (m : nat) : Q :=
  if decide (m = 2%nat) then 3 # 4 else 1 # 2.

Definition toy_training_epoch (m : nat) (batches : list Batch) : nat := S m.

Definition toy_validation_epoch (m : nat) (batches : list Batch) : gmap string Q :=
  {[ "valid/acc" := toy_accuracy m ]}.

Definition toy_model (name : string) (num_labels : nat) (lr weight_decay : Q) : nat :=
  0%nat.


(** The sum of the diagonal of a matrix. *)
Definition matrix_trace (m : list (list Z)) : Z :=
  sum_Z (imap (fun k row => default 0 (row !! k)) m).

(** The sum of all the cells of a matrix. *)
Definition matrix_total (m : list (list Z)) : Z := sum_Z (map sum_Z m).

(** [x] is one of the ids [0 .. n-1]. *)
Definition is_id (n : nat) (x : Z) : Prop := 0 <= x < Z.of_nat n.

#[global] Instance is_id_dec (n : nat) (x : Z) : Decision (is_id n x).
Proof. unfold is_id. apply _. Defined.

(** * Properties *)

(** ** The exception monad *)

Lemma bind_Ok {A B : Type} (a : A) (f : A -> result B) : Ok a ≫= f = f a.
Proof. reflexivity. Qed.

Lemma bind_Raise {A B : Type} (e : exn) (f : A -> result B) : Raise e ≫= f = Raise e.
Proof. reflexivity. Qed.

(** ** Comprehensions *)

Lemma comprehension_ok {A B : Type} (f : A -> result B) (g : A -> B) (l : list A) :
  Forall (fun a => f a = Ok (g a)) l -> comprehension f l = Ok (map g l).
Proof.
  induction 1 as [|a l Ha _ IH]; simpl; [done|].
  by rewrite Ha, IH.
Qed.

(** ** The collate function *)

Lemma cefr_sample_fields (s : sample) :
  is_cefr_sample s ->
  getitem s "sentence" = Ok (field "sentence" s) /\
  getitem s "label" = Ok (field "label" s) /\
  getitem s "difficulty" = Ok (field "difficulty" s) /\
  field "sentence" s = VStr (sentence_text s) /\
  field "label" s = VInt (label_id s).
Proof.
  unfold is_cefr_sample, getitem, sentence_text, label_id, field.
  destruct (s !! "sentence") as [[]|]; simpl; try done;
    destruct (s !! "label") as [[]|]; simpl; try done;
    destruct (s !! "difficulty"); simpl; done.
Qed.

Lemma cefr_sample_label_int64 (s : sample) :
  is_cefr_sample s -> is_int64 (label_id s).
Proof.
  unfold is_cefr_sample, label_id, field.
  destruct (s !! "sentence") as [[]|]; simpl; try done;
    destruct (s !! "label") as [[]|]; simpl; try done;
    destruct (s !! "difficulty"); simpl; try done.
  intros H. by apply bool_decide_unpack in H.
Qed.

Lemma torch_tensor_ok (zs : list Z) :
  Forall is_int64 zs -> torch_tensor (map VInt zs) = Ok zs.
Proof.
  intros Hall.
  assert (store_int64 zs = Ok zs) as Hstore.
  { unfold store_int64.
    induction Hall as [|z zs Hz _ IH]; simpl; [done|].
    rewrite decide_True by done. by rewrite IH. }
  assert (infer_scalar_type (map VInt zs) = Ok zs) as Hinfer.
  { unfold infer_scalar_type. clear Hall Hstore.
    induction zs as [|z zs IH]; simpl; [done|]. by rewrite IH. }
  unfold torch_tensor. destruct zs as [|z zs]; [done|].
  simpl map in *. cbv iota. rewrite Hinfer. by rewrite bind_Ok.
Qed.

Lemma cefr_sample_field_sentence (s : sample) :
  is_cefr_sample s -> field "sentence" s = VStr (sentence_text s).
Proof. intros H. by destruct (cefr_sample_fields s H) as (_ & _ & _ & ? & _). Qed.

Lemma cefr_sample_field_label (s : sample) :
  is_cefr_sample s -> field "label" s = VInt (label_id s).
Proof. intros H. by destruct (cefr_sample_fields s H) as (_ & _ & _ & _ & ?). Qed.

Lemma longest_upper (encs : list (list Z)) :
  Forall (fun e => (length e <= longest encs)%nat) encs.
Proof.
  induction encs as [|e encs IH]; simpl; constructor; [lia|].
  eapply Forall_impl; [exact IH|]. simpl. intros; lia.
Qed.

Lemma longest_attained (encs : list (list Z)) :
  encs <> [] -> Exists (fun e => length e = longest encs) encs.
Proof.
  induction encs as [|e encs IH]; [done|]. intros _.
  change (longest (e :: encs)) with (Nat.max (length e) (longest encs)).
  destruct (decide (encs = [])) as [->|Hne].
  - left. simpl. lia.
  - specialize (IH Hne).
    destruct (decide (longest encs <= length e)%nat) as [Hle|Hgt].
    + left. lia.
    + right. eapply Exists_impl; [exact IH|].
      intros x Hx. cbv beta in *. lia.
Qed.

Lemma pad_ids_length (pad : Z) (width : nat) (e : list Z) :
  (length e <= width)%nat -> length (pad_ids pad width e) = width.
Proof.
  intros. unfold pad_ids. rewrite length_app, length_replicate. lia.
Qed.

Lemma pad_mask_length (width : nat) (e : list Z) :
  (length e <= width)%nat -> length (pad_mask width e) = width.
Proof.
  intros. unfold pad_mask. rewrite length_app, !length_replicate. lia.
Qed.

Lemma tokenizer_ok (encode : string -> list Z) (pad : Z) (texts : list string) :
  texts <> [] ->
  tokenizer encode pad (map VStr texts) =
    Ok {| enc_input_ids := map (pad_ids pad (longest (map encode texts))) (map encode texts);
          enc_attention_mask := map (pad_mask (longest (map encode texts))) (map encode texts) |}.
Proof.
  intros Hne. unfold tokenizer.
  destruct texts as [|t texts]; [done|].
  change (map VStr (t :: texts)) with (VStr t :: map VStr texts).
  cbv beta iota.
  rewrite (comprehension_ok _ (fun v => match v with VStr s => encode s | _ => [] end)).
  - simpl. rewrite !map_map. done.
  - change (VStr t :: map VStr texts) with (map VStr (t :: texts)).
    apply Forall_map. apply Forall_true. done.
Qed.

Lemma rows_width_shape (t : tensor2) (width : nat) :
  t <> [] -> Forall (fun r => length r = width) t -> shape t = (length t, width).
Proof.
  intros Hne Hall. unfold shape. destruct t as [|r t]; [done|].
  by inversion Hall; subst.
Qed.

Lemma tokenize_batch_ok (encode : string -> list Z) (pad : Z) (samples : list sample) :
  samples <> [] ->
  Forall is_cefr_sample samples ->
  tokenize_batch encode pad samples = Ok (collated encode pad samples).
Proof.
  intros Hne Hall. unfold tokenize_batch.
  rewrite (comprehension_ok (fun s => getitem s "sentence") (field "sentence")); cycle 1.
  { eapply Forall_impl; [exact Hall|]. intros s Hs.
    by destruct (cefr_sample_fields s Hs) as (? & _). }
  simpl.
  rewrite (comprehension_ok (fun s => getitem s "label") (field "label")); cycle 1.
  { eapply Forall_impl; [exact Hall|]. intros s Hs.
    by destruct (cefr_sample_fields s Hs) as (_ & ? & _). }
  simpl.
  assert (map (field "label") samples = map VInt (map label_id samples)) as Hlabel.
  { rewrite map_map. apply map_ext_Forall.
    eapply Forall_impl; [exact Hall|]. intros s Hs.
    by apply cefr_sample_field_label. }
  rewrite Hlabel at 1.
  rewrite torch_tensor_ok; cycle 1.
  { apply Forall_map. eapply Forall_impl; [exact Hall|]. intros s Hs.
    by apply cefr_sample_label_int64. }
  rewrite bind_Ok.
  rewrite (comprehension_ok (fun s => getitem s "difficulty") (field "difficulty")); cycle 1.
  { eapply Forall_impl; [exact Hall|]. intros s Hs.
    by destruct (cefr_sample_fields s Hs) as (_ & _ & ? & _). }
  simpl.
  assert (map (field "sentence") samples = map VStr (map sentence_text samples)) as Htext.
  { rewrite map_map. apply map_ext_Forall.
    eapply Forall_impl; [exact Hall|]. intros s Hs.
    by apply cefr_sample_field_sentence. }
  rewrite Htext at 1.
  rewrite tokenizer_ok by (destruct samples; done).
  simpl. unfold collated, encodings. rewrite !map_map. done.
Qed.

(** C3.  For a batch that is not empty and whose samples carry a
    sentence that is a string, a label that is a 64-bit integer and a
    difficulty, [tokenize_batch] returns
    a batch whose [sentences], [labels] and [str_labels] are the
    corresponding fields of the samples in input order, with one label
    per sample, and whose [input_ids] and [attention_mask] have the same
    shape: one row per sample, every row as wide as the longest encoding
    of the batch, which at least one sentence attains without padding. *)
Theorem tokenize_batch_fields (encode : string -> list Z) (pad : Z)
    (samples : list sample) :
  samples <> [] ->
  Forall is_cefr_sample samples ->
  exists b : Batch,
    tokenize_batch encode pad samples = Ok b /\
    sentences b = map (field "sentence") samples /\
    map VInt (labels b) = map (field "label") samples /\
    length (labels b) = length samples /\
    str_labels b = map (field "difficulty") samples /\
    shape (input_ids b) = shape (attention_mask b) /\
    shape (input_ids b) = (length samples, longest (encodings encode samples)) /\
    Forall (fun r => length r = longest (encodings encode samples)) (input_ids b) /\
    Forall (fun r => length r = longest (encodings encode samples)) (attention_mask b) /\
    Forall2 (fun e r => exists n, r = e ++ replicate n pad)
            (encodings encode samples) (input_ids b) /\
    Exists (fun e => length e = longest (encodings encode samples))
           (encodings encode samples).
Proof.
  intros Hne Hall. eexists. split; [by apply tokenize_batch_ok|]. simpl.
  set (encs := encodings encode samples).
  assert (length encs = length samples) as Hlen
    by (unfold encs, encodings; by rewrite length_map).
  assert (encs <> []) as Hencs by (destruct samples; done).
  assert (Forall (fun r => length r = longest encs) (map (pad_ids pad (longest encs)) encs)) as Hids.
  { apply Forall_map. eapply Forall_impl; [apply longest_upper|].
    intros e He. by apply pad_ids_length. }
  assert (Forall (fun r => length r = longest encs) (map (pad_mask (longest encs)) encs)) as Hmask.
  { apply Forall_map. eapply Forall_impl; [apply longest_upper|].
    intros e He. by apply pad_mask_length. }
  assert (shape (map (pad_ids pad (longest encs)) encs) = (length samples, longest encs)) as Hshape.
  { rewrite (rows_width_shape _ (longest encs)); [|destruct encs; done|done].
    by rewrite length_map, Hlen. }
  repeat split; try done.
  - rewrite map_map. apply map_ext_Forall.
    eapply Forall_impl; [exact Hall|]. intros s Hs. simpl.
    by rewrite cefr_sample_field_label.
  - by rewrite length_map.
  - rewrite Hshape.
    rewrite (rows_width_shape _ (longest encs)); [|destruct encs; done|done].
    by rewrite length_map, Hlen.
  - subst encs. generalize (longest (encodings encode samples)).
    generalize (encodings encode samples). clear.
    intros encs w. induction encs as [|e encs IH]; simpl; constructor; [|exact IH].
    by eexists.
  - by apply longest_attained.
Qed.

Lemma tokenize_batch_fields_witness :
  exists b : Batch,
    tokenize_batch (fun s => map (fun _ => 5) (String.list_ascii_of_string s)) 1
      [sample_of "Bonjour" 0 "A1"; sample_of "Oui" 1 "A2"] = Ok b /\
    sentences b = [VStr "Bonjour"; VStr "Oui"] /\
    input_ids b = [[5; 5; 5; 5; 5; 5; 5]; [5; 5; 5; 1; 1; 1; 1]] /\
    attention_mask b = [[1; 1; 1; 1; 1; 1; 1]; [1; 1; 1; 0; 0; 0; 0]].
Proof.
  destruct (tokenize_batch_fields
              (fun s => map (fun _ => 5) (String.list_ascii_of_string s)) 1
              [sample_of "Bonjour" 0 "A1"; sample_of "Oui" 1 "A2"])
    as (b & Hb & _).
  - discriminate.
  - repeat constructor.
  - exists b. split; [exact Hb|].
    vm_compute in Hb. injection Hb as <-. repeat split; reflexivity.
Defined.

(** ** Batching *)

Lemma batch_sampler_concat (size : nat) (batch indices : list nat) :
  concat (batch_sampler size batch indices) = batch ++ indices.
Proof.
  revert batch. induction indices as [|idx rest IH]; intros batch; simpl.
  - case_decide; simpl; rewrite ?app_nil_r; [done|].
    destruct batch; simpl in *; [done|lia].
  - case_decide; simpl; rewrite IH; by rewrite <- ?app_assoc.
Qed.

Lemma batch_sampler_nonempty (size : nat) (batch indices : list nat) :
  Forall (fun b => b <> []) (batch_sampler size batch indices).
Proof.
  revert batch. induction indices as [|idx rest IH]; intros batch; simpl.
  - case_decide; [|constructor]. constructor; [|constructor].
    intros ->. simpl in *. lia.
  - case_decide; [constructor|]; try apply IH. by destruct batch.
Qed.

Lemma batch_sampler_sizes (size : nat) (batch indices : list nat) :
  (length batch < size)%nat ->
  Forall (fun b => (length b <= size)%nat) (batch_sampler size batch indices).
Proof.
  revert batch. induction indices as [|idx rest IH]; intros batch Hlt; simpl.
  - case_decide; constructor; [lia|constructor].
  - case_decide as Hfull.
    + constructor; [lia|]. apply IH. simpl. lia.
    + apply IH. rewrite length_app in *. simpl in *. lia.
Qed.

Lemma batch_sampler_members (size : nat) (batch indices : list nat) (P : nat -> Prop) :
  Forall P (batch ++ indices) ->
  Forall (Forall P) (batch_sampler size batch indices).
Proof.
  rewrite <- batch_sampler_concat with (size := size).
  generalize (batch_sampler size batch indices). intros bs.
  induction bs as [|b bs IH]; simpl; [constructor|].
  rewrite Forall_app. intros [Hb Hbs]. constructor; [done|by apply IH].
Qed.

Lemma fetch_all_rows (ds : Dataset) :
  fetch ds (seq 0 (length (rows ds))) = rows ds.
Proof.
  unfold fetch. generalize (rows ds). intros l.
  apply list_eq. intros i.
  destruct (decide (i < length l)%nat) as [Hlt|Hge].
  - destruct (l !! i) as [x|] eqn:Hx; [|apply lookup_ge_None in Hx; lia].
    assert (seq 0 (length l) !! i = Some i) as Hseq by (apply lookup_seq; lia).
    apply list_elem_of_split_length in Hseq as (l1 & l2 & Heq & Hlen).
    rewrite Heq, map_app. simpl.
    rewrite lookup_app_r by (rewrite length_map; lia).
    rewrite length_map, <- Hlen, Nat.sub_diag. simpl.
    f_equal. by apply list_lookup_total_correct.
  - rewrite !lookup_ge_None_2; [done|lia|].
    rewrite length_map, length_seq. lia.
Qed.

Lemma fetch_concat (ds : Dataset) (batches : list (list nat)) :
  concat (map (fetch ds) batches) = fetch ds (concat batches).
Proof. unfold fetch. by rewrite concat_map. Qed.

Lemma chunks_concat (size : nat) (ds : Dataset) :
  concat (chunks size ds) = rows ds.
Proof.
  unfold chunks. rewrite fetch_concat, batch_sampler_concat. simpl.
  apply fetch_all_rows.
Qed.

Lemma chunks_nonempty (size : nat) (ds : Dataset) :
  Forall (fun c => c <> []) (chunks size ds).
Proof.
  unfold chunks. apply Forall_map.
  eapply Forall_impl; [apply batch_sampler_nonempty|].
  intros b Hb. unfold fetch. by destruct b.
Qed.

Lemma chunks_sizes (size : nat) (ds : Dataset) :
  (0 < size)%nat -> Forall (fun c => (length c <= size)%nat) (chunks size ds).
Proof.
  intros Hpos. unfold chunks. apply Forall_map.
  eapply Forall_impl; [by apply batch_sampler_sizes|].
  intros b Hb. unfold fetch. by rewrite length_map.
Qed.

Example batch_sampler_35_by_16 :
  map length (batch_sampler 16 [] (seq 0 35)) = [16; 16; 3]%nat.
Proof. reflexivity. Qed.

Lemma fetch_ok (ds : Dataset) (batch : list nat) :
  Forall (fun i => (i < length (rows ds))%nat) batch ->
  comprehension (ds_getitem ds) batch = Ok (fetch ds batch).
Proof.
  intros Hall. apply comprehension_ok.
  eapply Forall_impl; [exact Hall|]. intros i Hi. cbv beta in Hi. unfold ds_getitem.
  destruct (rows ds !! i) as [x|] eqn:Hx; [|apply lookup_ge_None in Hx; lia].
  by rewrite (list_lookup_total_correct _ _ _ Hx).
Qed.

Lemma fetch_cefr (ds : Dataset) (batch : list nat) :
  Forall is_cefr_sample (rows ds) ->
  Forall (fun i => (i < length (rows ds))%nat) batch ->
  Forall is_cefr_sample (fetch ds batch).
Proof.
  intros Hrows Hall. unfold fetch. apply Forall_map.
  eapply Forall_impl; [exact Hall|]. intros i Hi. cbv beta in Hi.
  destruct (rows ds !! i) as [x|] eqn:Hx; [|apply lookup_ge_None in Hx; lia].
  rewrite (list_lookup_total_correct _ _ _ Hx).
  by apply (proj1 (Forall_lookup _ _) Hrows i x).
Qed.

(** A pass over a loader that does not shuffle and collates with
    [tokenize_batch] yields the collated groups of rows, in order. *)
Lemma dl_iter_sequential (encode : string -> list Z) (pad : Z)
    (randperm : nat -> nat -> list nat) (draw size : nat) (ds : Dataset) :
  Forall is_cefr_sample (rows ds) ->
  dl_iter randperm draw
    {| dl_dataset := ds; batch_size := size; shuffle := false;
       collate_fn := tokenize_batch encode pad |}
  = Ok (map (collated encode pad) (chunks size ds)).
Proof.
  intros Hrows. unfold dl_iter, sampler, chunks. simpl.
  rewrite map_map. apply comprehension_ok.
  assert (Forall (Forall (fun i => (i < length (rows ds))%nat))
            (batch_sampler size [] (seq 0 (length (rows ds))))) as Hidx.
  { apply batch_sampler_members. simpl. apply Forall_forall.
    intros i Hi. apply elem_of_seq in Hi. lia. }
  pose proof (batch_sampler_nonempty size [] (seq 0 (length (rows ds)))) as Hne.
  revert Hidx Hne.
  generalize (batch_sampler size [] (seq 0 (length (rows ds)))). intros batches.
  induction batches as [|b batches IH]; intros Hidx Hne; [constructor|].
  inversion Hidx; inversion Hne; subst.
  constructor; [|by apply IH].
  rewrite fetch_ok by done. simpl.
  apply tokenize_batch_ok; [unfold fetch; by destruct b|by apply fetch_cefr].
Qed.

Lemma zip_concat {A B : Type} (f : list A -> list B) (groups : list (list A)) :
  Forall (fun g => length (f g) = length g) groups ->
  zip (concat groups) (concat (map f groups)) =
    concat (map (fun g => zip g (f g)) groups).
Proof.
  induction 1 as [|g groups Hg _ IH]; simpl; [done|].
  rewrite zip_with_app by done. by rewrite IH.
Qed.

Lemma length_concat_map {A B : Type} (f : list A -> list B) (groups : list (list A)) :
  Forall (fun g => length (f g) = length g) groups ->
  length (concat (map f groups)) = length (concat groups).
Proof.
  induction 1 as [|g groups Hg _ IH]; simpl; [done|].
  rewrite !length_app. lia.
Qed.

Lemma collated_labels_length (encode : string -> list Z) (pad : Z) (c : list sample) :
  length (labels (collated encode pad c)) = length c.
Proof. simpl. by rewrite length_map. Qed.

(** The predictions on a split read through a loader that does not
    shuffle: one per row, the i-th one computed from the batch that
    holds the i-th row, at the position of that row in the batch. *)
Lemma sequential_predictions (Model : Type) (predict_step : Model -> Batch -> tensor1)
    (encode : string -> list Z) (pad : Z) (randperm : nat -> nat -> list nat)
    (draw size : nat) (m : Model) (ds : Dataset) :
  Forall is_cefr_sample (rows ds) ->
  rows ds <> [] ->
  (forall b, length (predict_step m b) = length (labels b)) ->
  (preds ← trainer_predict Model predict_step randperm draw m
             {| dl_dataset := ds; batch_size := size; shuffle := false;
                collate_fn := tokenize_batch encode pad |};
   torch_cat preds) = Ok (predictions predict_step encode pad m size ds) /\
  length (predictions predict_step encode pad m size ds) = length (rows ds) /\
  zip (rows ds) (predictions predict_step encode pad m size ds) =
    concat (map (fun c => zip c (predict_step m (collated encode pad c)))
                (chunks size ds)).
Proof.
  intros Hrows Hne Hstep. unfold predictions. split.
  - unfold trainer_predict. rewrite dl_iter_sequential by done.
    rewrite bind_Ok. unfold mret, result_ret. rewrite bind_Ok.
    rewrite map_map. unfold torch_cat.
    destruct (chunks size ds) as [|c cs] eqn:Hc; [|done].
    pose proof (chunks_concat size ds) as Hcat. rewrite Hc in Hcat. done.
  - assert (Forall (fun c => length (predict_step m (collated encode pad c)) = length c)
              (chunks size ds)) as Hlen.
    { apply Forall_forall. intros c _. by rewrite Hstep, collated_labels_length. }
    split.
    + etrans; [exact (length_concat_map _ _ Hlen)|]. by rewrite chunks_concat.
    + rewrite <- (chunks_concat size ds) at 1. exact (zip_concat _ _ Hlen).
Qed.

(** ** Label tables *)

Lemma ID_TO_LABEL_table :
  ID_TO_LABEL = [(0, "A1"); (1, "A2"); (2, "B1"); (3, "B2"); (4, "C1"); (5, "C2")].
Proof. reflexivity. Qed.

Lemma label_names_table :
  label_names = ["A1"; "A2"; "B1"; "B2"; "C1"; "C2"].
Proof. reflexivity. Qed.

Lemma label_id_cases (p : Z) :
  0 <= p < 6 -> p = 0 \/ p = 1 \/ p = 2 \/ p = 3 \/ p = 4 \/ p = 5.
Proof. lia. Qed.

Lemma label_names_getitem (p : Z) :
  0 <= p < 6 -> list_getitem label_names p = Ok (level_name p).
Proof.
  intros Hp. destruct (label_id_cases p Hp) as [->|[->|[->|[->|[->| ->]]]]];
    reflexivity.
Qed.

Lemma label_names_getitem_large (x : Z) :
  Z.of_nat (length label_names) <= x -> list_getitem label_names x = Raise IndexError.
Proof.
  intros Hx. unfold list_getitem.
  destruct (decide (x < 0)) as [Hneg|_]; [lia|].
  destruct (decide (0 <= x < Z.of_nat (length label_names))) as [Hin|_]; [lia|].
  reflexivity.
Qed.

Lemma id_to_label_ok (p : Z) :
  0 <= p < 6 -> id_to_label p = Ok (level_name p).
Proof.
  intros Hp. destruct (label_id_cases p Hp) as [->|[->|[->|[->|[->| ->]]]]];
    reflexivity.
Qed.

Lemma difficulty_of_ok (p : Z) :
  0 <= p < 6 -> difficulty_of (VInt p) = Ok (VStr (level_name p)).
Proof. intros Hp. unfold difficulty_of. by rewrite label_names_getitem. Qed.

(** ** Columns *)

Lemma map_lookup {A B : Type} (f : A -> B) (l : list A) (i : nat) :
  map f l !! i = f <$> l !! i.
Proof.
  revert i. induction l as [|a l IH]; intros [|i]; simpl; done.
Qed.

Lemma columns_of_names (names : list string) (f : string -> list value) :
  map fst (columns_of names f) = names.
Proof.
  unfold columns_of. rewrite map_map. simpl. apply map_id.
Qed.

Lemma columns_of_assoc (names : list string) (f : string -> list value) (name : string) :
  name ∈ names -> assoc name (columns_of names f) = Some (f name).
Proof.
  induction names as [|k names IH]; [by intros ?%elem_of_nil|].
  intros Hin. simpl. destruct (decide (k = name)) as [->|Hne]; [done|].
  apply IH. apply elem_of_cons in Hin as [->|]; done.
Qed.

Lemma columns_of_set (names : list string) (f : string -> list value)
    (name : string) (vals : list value) :
  map (fun c => if decide (c.1 = name) then (name, vals) else c) (columns_of names f)
  = columns_of names (fun k => if decide (k = name) then vals else f k).
Proof.
  unfold columns_of. rewrite map_map. apply map_ext. intros k. simpl.
  destruct (decide (k = name)) as [->|]; done.
Qed.

Lemma columns_of_filter (names drop : list string) (f : string -> list value) :
  filter (fun c => c.1 ∉ drop) (columns_of names f)
  = columns_of (filter (fun k => k ∉ drop) names) f.
Proof.
  induction names as [|k names IH]; [done|]. simpl.
  rewrite !filter_cons. simpl.
  destruct (decide (k ∉ drop)); simpl; by rewrite IH.
Qed.

Lemma columns_of_ext (names : list string) (f g : string -> list value) :
  (forall k, k ∈ names -> f k = g k) -> columns_of names f = columns_of names g.
Proof.
  intros Hext. unfold columns_of. apply map_ext_Forall, Forall_forall.
  intros k Hk. by rewrite Hext.
Qed.

Lemma series_apply_difficulty (preds : tensor1) :
  Forall (fun p => 0 <= p < 6) preds ->
  series_apply difficulty_of (map VInt preds)
  = Ok (map (fun p => VStr (level_name p)) preds).
Proof.
  intros Hall. unfold series_apply.
  rewrite (comprehension_ok difficulty_of
             (fun v => match v with VInt p => VStr (level_name p) | _ => VNone end)).
  - by rewrite map_map.
  - apply Forall_map. eapply Forall_impl; [exact Hall|].
    intros p Hp. by apply difficulty_of_ok.
Qed.

Lemma df_setattr_column (iname : option string) (idx : list Z)
    (names : list string) (f : string -> list value)
    (attrs : list (string * list value)) (name : string) (vals : list value) :
  name ∈ names ->
  length vals = length idx ->
  df_setattr {| df_index_name := iname; df_index := idx;
                df_columns := columns_of names f; df_attrs := attrs |} name vals
  = Ok {| df_index_name := iname; df_index := idx;
          df_columns := columns_of names (fun k => if decide (k = name) then vals else f k);
          df_attrs := attrs |}.
Proof.
  intros Hin Hlen. unfold df_setattr, has_column, column_names. simpl.
  rewrite columns_of_names.
  rewrite bool_decide_eq_true_2 by done.
  rewrite decide_True by done.
  by rewrite columns_of_set.
Qed.

Lemma df_series_column (iname : option string) (idx : list Z)
    (names : list string) (f : string -> list value) (name : string) :
  name ∈ names ->
  df_series {| df_index_name := iname; df_index := idx;
               df_columns := columns_of names f; df_attrs := [] |} name
  = Ok (f name).
Proof.
  intros Hin. unfold df_series. simpl. by rewrite columns_of_assoc.
Qed.

Lemma df_drop_columns (iname : option string) (idx : list Z)
    (names : list string) (f : string -> list value)
    (attrs : list (string * list value)) (drop : list string) :
  Forall (fun name => name ∈ names) drop ->
  df_drop {| df_index_name := iname; df_index := idx;
             df_columns := columns_of names f; df_attrs := attrs |} drop
  = Ok {| df_index_name := iname; df_index := idx;
          df_columns := columns_of (filter (fun k => k ∉ drop) names) f;
          df_attrs := attrs |}.
Proof.
  intros Hall. unfold df_drop, column_names. simpl.
  rewrite columns_of_names.
  assert (filter (fun name => name ∉ names) drop = []) as ->.
  { induction Hall as [|k drop Hk _ IH]; [done|].
    rewrite filter_cons. by rewrite decide_False by (intros Hn; by apply Hn). }
  by rewrite columns_of_filter.
Qed.

Lemma length_range (n : nat) : length (range n) = n.
Proof. unfold range. by rewrite length_map, length_seq. Qed.

(** The frame built by the last cell, for a test split that has the
    three columns the cell touches and predictions that are label ids,
    one per row. *)
Lemma test_df_ok (test : Dataset) (preds : tensor1) :
  "sentence" ∈ features test ->
  "label" ∈ features test ->
  "difficulty" ∈ features test ->
  length preds = length (rows test) ->
  Forall (fun p => 0 <= p < 6) preds ->
  test_df test preds = Ok (submitted_df test preds).
Proof.
  intros Hs Hl Hd Hlen Hall. unfold test_df, to_pandas.
  change (map (fun name => (name, ds_column test name)) (features test))
    with (columns_of (features test) (ds_column test)).
  rewrite df_setattr_column; [|done|by rewrite length_map, length_range].
  simpl. rewrite df_series_column by done.
  cbv beta. rewrite decide_True by done. rewrite bind_Ok.
  rewrite series_apply_difficulty by done. rewrite bind_Ok.
  rewrite df_setattr_column; [|done|by rewrite length_map, length_range].
  rewrite bind_Ok. unfold df_set_index_name. simpl.
  rewrite df_drop_columns by (repeat constructor; done).
  unfold submitted_df. do 2 f_equal.
  apply columns_of_ext. intros k Hk.
  apply list_elem_of_filter in Hk as [Hnot _].
  destruct (decide (k = "difficulty")); [done|].
  destruct (decide (k = "label")) as [->|]; [|done].
  exfalso. apply Hnot. set_solver.
Qed.

Lemma df_row_columns_of (iname : option string) (idx : list Z)
    (names : list string) (f : string -> list value)
    (attrs : list (string * list value)) (i : nat) :
  df_row {| df_index_name := iname; df_index := idx;
            df_columns := columns_of names f; df_attrs := attrs |} i
  = map (fun k => default VNone (f k !! i)) names.
Proof. unfold df_row, columns_of. simpl. by rewrite map_map. Qed.

(** The file written from the exported frame: the header, then one
    line per row of the test split, in the order of the split. *)
Lemma to_csv_submitted (test : Dataset) (preds : tensor1) :
  length preds = length (rows test) ->
  to_csv (submitted_df test preds) =
    (VStr "id" :: map VStr (kept_columns test))
    :: imap (fun i sp => submitted_line (kept_columns test) i sp.1 sp.2)
            (zip (rows test) preds).
Proof.
  intros Hlen. unfold to_csv. f_equal.
  { unfold column_names, submitted_df. simpl. by rewrite columns_of_names. }
  apply list_eq. intros i. rewrite !list_lookup_imap.
  unfold submitted_df at 2. simpl. unfold range. rewrite map_lookup.
  rewrite lookup_zip_with.
  destruct (rows test !! i) as [s|] eqn:Hs; simpl.
  - assert (i < length preds)%nat as Hi by (rewrite Hlen; by eapply lookup_lt_Some).
    destruct (preds !! i) as [p|] eqn:Hp; [|apply lookup_ge_None in Hp; lia].
    assert (seq 0 (length (rows test)) !! i = Some i) as ->
      by (apply lookup_seq; split; [done|lia]).
    unfold submitted_df. rewrite df_row_columns_of. simpl.
    unfold submitted_line. do 2 f_equal.
    apply map_ext. intros k. unfold submitted_cell.
    destruct (decide (k = "difficulty")).
    + by rewrite map_lookup, Hp.
    + unfold ds_column. by rewrite map_lookup, Hs.
  - apply lookup_ge_None in Hs.
    rewrite (lookup_ge_None_2 (seq _ _)) by (rewrite length_seq; lia). done.
Qed.

Lemma cell_under_submitted (names : list string) (i : nat) (s : sample) (p : Z)
    (name : string) :
  name ∈ names ->
  name <> "id" ->
  cell_under (VStr "id" :: map VStr names) (submitted_line names i s p) name
  = Some (submitted_cell s p name).
Proof.
  intros Hin Hid. unfold submitted_line. simpl.
  rewrite decide_False by congruence.
  induction names as [|k names IH]; [by apply elem_of_nil in Hin|]. simpl.
  destruct (decide (VStr k = VStr name)) as [[= ->]|Hne]; [done|].
  apply IH. apply elem_of_cons in Hin as [->|]; done.
Qed.

(** ** The exported file *)

Section Submission.

Variable Model : Type.
Variable predict_step : Model -> Batch -> tensor1.
Variable encode : string -> list Z.
Variable pad_token_id : Z.
Variable randperm : nat -> nat -> list nat.

Abbreviation submission' := (submission Model predict_step encode pad_token_id randperm).
Abbreviation predictions' := (predictions predict_step encode pad_token_id).

(** The last cell on a well-formed test split: the file holds the
    header and one line per row, built from the row and from the
    prediction aligned with it. *)
Lemma submission_ok (m : Model) (dataset : DatasetDict) (test : Dataset) :
  dd_getitem dataset "test" = Ok test ->
  rows test <> [] ->
  Forall is_cefr_sample (rows test) ->
  "sentence" ∈ features test ->
  "label" ∈ features test ->
  "difficulty" ∈ features test ->
  (forall b, length (predict_step m b) = length (labels b)) ->
  (forall b, Forall (fun p => 0 <= p < 6) (predict_step m b)) ->
  submission' m dataset =
    Ok ((VStr "id" :: map VStr (kept_columns test))
        :: imap (fun i sp => submitted_line (kept_columns test) i sp.1 sp.2)
                (zip (rows test) (predictions' m 16 test))).
Proof.
  intros Htest Hne Hrows Hs Hl Hd Hlen Hrange.
  destruct (sequential_predictions Model predict_step encode pad_token_id
              randperm 0 16 m test Hrows Hne Hlen) as (Hpreds & Hn & _).
  unfold submission, test_dataloader, collate. rewrite Htest, bind_Ok.
  unfold mret at 1, result_ret. rewrite bind_Ok.
  destruct (trainer_predict Model predict_step randperm 0 m _) as [ts|e];
    [|by rewrite bind_Raise in Hpreds].
  rewrite bind_Ok in Hpreds. rewrite bind_Ok, Hpreds, !bind_Ok.
  rewrite test_df_ok; try done.
  - rewrite bind_Ok. unfold mret, result_ret. by rewrite to_csv_submitted.
  - unfold predictions. apply Forall_concat, Forall_map, Forall_forall.
    intros c _. apply Hrange.
Qed.

End Submission.

Lemma toy_predict_step_length {M : Type} (m : M) (b : Batch) :
  length (toy_predict_step m b) = length (labels b).
Proof. unfold toy_predict_step. by rewrite length_map. Qed.

Lemma toy_predict_step_range {M : Type} (m : M) (b : Batch) :
  Forall (fun p => 0 <= p < 6) (toy_predict_step m b).
Proof.
  unfold toy_predict_step. apply Forall_map, Forall_forall.
  intros z _. simpl. apply Z.mod_pos_bound. lia.
Qed.

(** C2.  On a test split whose rows carry the three fields, with a
    prediction step that returns one label id per sample, the last cell
    writes a header and exactly one line per row of the test split, in
    the order of the split: the loader cuts the rows into consecutive
    batches, the per-batch predictions are concatenated, and line [i]
    holds index [i], the cells of row [i] and the prediction aligned
    with row [i]. *)
Theorem submission_one_line_per_test_row (Model : Type)
    (predict_step : Model -> Batch -> tensor1) (encode : string -> list Z)
    (pad : Z) (randperm : nat -> nat -> list nat)
    (m : Model) (dataset : DatasetDict) (test : Dataset) :
  dd_getitem dataset "test" = Ok test ->
  rows test <> [] ->
  Forall is_cefr_sample (rows test) ->
  "sentence" ∈ features test ->
  "label" ∈ features test ->
  "difficulty" ∈ features test ->
  (forall b, length (predict_step m b) = length (labels b)) ->
  (forall b, Forall (fun p => 0 <= p < 6) (predict_step m b)) ->
  exists lines : list (list value),
    submission Model predict_step encode pad randperm m dataset =
      Ok ((VStr "id" :: map VStr (kept_columns test)) :: lines) /\
    length lines = length (rows test) /\
    concat (chunks 16 test) = rows test /\
    zip (rows test) (predictions predict_step encode pad m 16 test) =
      concat (map (fun c => zip c (predict_step m (collated encode pad c)))
                  (chunks 16 test)) /\
    forall (i : nat) (s : sample),
      rows test !! i = Some s ->
      exists p : Z,
        predictions predict_step encode pad m 16 test !! i = Some p /\
        lines !! i = Some (submitted_line (kept_columns test) i s p).
Proof.
  intros Htest Hne Hrows Hs Hl Hd Hlen Hrange.
  destruct (sequential_predictions Model predict_step encode pad
              randperm 0 16 m test Hrows Hne Hlen) as (_ & Hn & Hzip).
  eexists. split; [by eapply submission_ok|].
  split; [|split; [apply chunks_concat|split; [exact Hzip|]]].
  - rewrite length_imap, length_zip_with. lia.
  - intros i s Hi.
    destruct (predictions predict_step encode pad m 16 test !! i) as [p|] eqn:Hp.
    + exists p. split; [done|].
      rewrite list_lookup_imap, lookup_zip_with, Hi. simpl. by rewrite Hp.
    + apply lookup_ge_None in Hp. apply lookup_lt_Some in Hi. lia.
Qed.

Lemma submission_one_line_per_test_row_witness :
  exists lines : list (list value),
    submission unit toy_predict_step toy_encode 1 toy_randperm tt toy_dataset =
      Ok ((VStr "id" :: map VStr (kept_columns toy_test)) :: lines) /\
    length lines = length (rows toy_test) /\
    concat (chunks 16 toy_test) = rows toy_test /\
    zip (rows toy_test) (predictions toy_predict_step toy_encode 1 tt 16 toy_test) =
      concat (map (fun c => zip c (toy_predict_step tt (collated toy_encode 1 c)))
                  (chunks 16 toy_test)) /\
    forall (i : nat) (s : sample),
      rows toy_test !! i = Some s ->
      exists p : Z,
        predictions toy_predict_step toy_encode 1 tt 16 toy_test !! i = Some p /\
        lines !! i = Some (submitted_line (kept_columns toy_test) i s p).
Proof.
  apply (submission_one_line_per_test_row unit toy_predict_step toy_encode 1
           toy_randperm tt toy_dataset toy_test).
  - reflexivity.
  - discriminate.
  - repeat constructor.
  - set_solver.
  - set_solver.
  - set_solver.
  - apply toy_predict_step_length.
  - apply toy_predict_step_range.
Defined.

Example toy_submission :
  submission unit toy_predict_step toy_encode 1 toy_randperm tt toy_dataset =
    Ok [ [VStr "id"; VStr "difficulty"];
         [VInt 0; VStr "B1"];
         [VInt 1; VStr "A1"] ].
Proof. vm_compute. reflexivity. Qed.

(** C1.  The label table has exactly the six levels A1 to C2, id [i]
    mapped to the i-th name; and in the exported file, the cell under
    [difficulty] of the line of a test row is the p-th of these names,
    where [p] is the label id predicted for that row. *)
Theorem difficulty_is_level_of_predicted_id (Model : Type)
    (predict_step : Model -> Batch -> tensor1) (encode : string -> list Z)
    (pad : Z) (randperm : nat -> nat -> list nat)
    (m : Model) (dataset : DatasetDict) (test : Dataset) :
  dd_getitem dataset "test" = Ok test ->
  rows test <> [] ->
  Forall is_cefr_sample (rows test) ->
  "sentence" ∈ features test ->
  "label" ∈ features test ->
  "difficulty" ∈ features test ->
  (forall b, length (predict_step m b) = length (labels b)) ->
  (forall b, Forall (fun p => 0 <= p < 6) (predict_step m b)) ->
  label_names = ["A1"; "A2"; "B1"; "B2"; "C1"; "C2"] /\
  (forall p : Z, 0 <= p < 6 ->
     id_to_label p = Ok (nth (Z.to_nat p) ["A1"; "A2"; "B1"; "B2"; "C1"; "C2"] "")) /\
  exists (header : list value) (lines : list (list value)),
    submission Model predict_step encode pad randperm m dataset =
      Ok (header :: lines) /\
    forall (i : nat) (p : Z),
      predictions predict_step encode pad m 16 test !! i = Some p ->
      0 <= p < 6 /\
      exists line : list value,
        lines !! i = Some line /\
        cell_under header line "difficulty" =
          Some (VStr (nth (Z.to_nat p) ["A1"; "A2"; "B1"; "B2"; "C1"; "C2"] "")).
Proof.
  intros Htest Hne Hrows Hs Hl Hd Hlen Hrange.
  split; [reflexivity|]. split; [intros p Hp; by apply id_to_label_ok|].
  destruct (sequential_predictions Model predict_step encode pad
              randperm 0 16 m test Hrows Hne Hlen) as (_ & Hn & _).
  do 2 eexists. split; [by eapply submission_ok|].
  intros i p Hp. split.
  - assert (Forall (fun p => 0 <= p < 6)
              (predictions predict_step encode pad m 16 test)) as Hall.
    { unfold predictions. apply Forall_concat, Forall_map, Forall_forall.
      intros c _. apply Hrange. }
    by apply (proj1 (Forall_lookup _ _) Hall i p).
  - destruct (rows test !! i) as [s|] eqn:Hi.
    + eexists. split.
      * rewrite list_lookup_imap, lookup_zip_with, Hi. simpl. by rewrite Hp.
      * simpl fst. simpl snd. rewrite cell_under_submitted; [|..|done].
        -- unfold submitted_cell. by rewrite decide_True.
        -- unfold kept_columns. apply list_elem_of_filter. split; [set_solver|done].
    + apply lookup_ge_None in Hi. apply lookup_lt_Some in Hp. lia.
Qed.

Lemma difficulty_is_level_of_predicted_id_witness :
  label_names = ["A1"; "A2"; "B1"; "B2"; "C1"; "C2"] /\
  (forall p : Z, 0 <= p < 6 ->
     id_to_label p = Ok (nth (Z.to_nat p) ["A1"; "A2"; "B1"; "B2"; "C1"; "C2"] "")) /\
  exists (header : list value) (lines : list (list value)),
    submission unit toy_predict_step toy_encode 1 toy_randperm tt toy_dataset =
      Ok (header :: lines) /\
    forall (i : nat) (p : Z),
      predictions toy_predict_step toy_encode 1 tt 16 toy_test !! i = Some p ->
      0 <= p < 6 /\
      exists line : list value,
        lines !! i = Some line /\
        cell_under header line "difficulty" =
          Some (VStr (nth (Z.to_nat p) ["A1"; "A2"; "B1"; "B2"; "C1"; "C2"] "")).
Proof.
  apply (difficulty_is_level_of_predicted_id unit toy_predict_step toy_encode 1
           toy_randperm tt toy_dataset toy_test).
  - reflexivity.
  - discriminate.
  - repeat constructor.
  - set_solver.
  - set_solver.
  - set_solver.
  - apply toy_predict_step_length.
  - apply toy_predict_step_range.
Defined.

(** ** The number of labels *)

Lemma unique_from_spec (seen l : list value) :
  NoDup (unique_from seen l) /\
  forall v, v ∈ unique_from seen l <-> v ∈ l /\ v ∉ seen.
Proof.
  revert seen. induction l as [|x l IH]; intros seen; simpl.
  - split; [constructor|]. intros v. set_solver.
  - destruct (decide (x ∈ seen)) as [Hin|Hnot].
    + destruct (IH seen) as [Hnd Hel]. split; [done|].
      intros v. rewrite Hel. set_solver.
    + destruct (IH (x :: seen)) as [Hnd Hel]. split.
      * constructor; [|done]. rewrite Hel. set_solver.
      * intros v. rewrite elem_of_cons, Hel.
        destruct (decide (v = x)) as [->|]; set_solver.
Qed.

Lemma unique_spec (l : list value) :
  NoDup (unique l) /\ forall v, v ∈ unique l <-> v ∈ l.
Proof.
  destruct (unique_from_spec [] l) as [Hnd Hel]. split; [done|].
  intros v. unfold unique. rewrite Hel. set_solver.
Qed.

Lemma assoc_pd_dataset (dataset : DatasetDict) (split : string) (ds : Dataset) :
  dd_getitem dataset split = Ok ds ->
  assoc split (pd_dataset dataset) = Some (to_pandas ds).
Proof.
  induction dataset as [|[k d] dataset IH]; simpl; [done|].
  destruct (decide (k = split)); [by intros [= ->]|done].
Qed.

(** C10.  The head size is computed from the data: it is the number of
    distinct values of the [label] column of the train split.  It
    agrees with the size of the six-entry table of names exactly when
    that number is six, and looking up the name of an id that is at
    least the size of the table raises [IndexError]. *)
Theorem num_labels_counts_train_labels (dataset : DatasetDict) (train : Dataset) :
  dd_getitem dataset "train" = Ok train ->
  "label" ∈ features train ->
  num_labels dataset = Ok (length (unique (ds_column train "label"))) /\
  NoDup (unique (ds_column train "label")) /\
  (forall v, v ∈ unique (ds_column train "label") <-> v ∈ ds_column train "label") /\
  length label_names = 6%nat /\
  (num_labels dataset = Ok (length label_names) <->
   length (unique (ds_column train "label")) = 6%nat) /\
  (forall x : Z, Z.of_nat (length label_names) <= x ->
     list_getitem label_names x = Raise IndexError /\
     difficulty_of (VInt x) = Raise IndexError).
Proof.
  intros Htrain Hlabel.
  assert (num_labels dataset = Ok (length (unique (ds_column train "label")))) as Hnum.
  { unfold num_labels. rewrite (assoc_pd_dataset _ _ _ Htrain).
    unfold df_getitem, to_pandas. simpl.
    change (map (fun name => (name, ds_column train name)) (features train))
      with (columns_of (features train) (ds_column train)).
    by rewrite columns_of_assoc. }
  destruct (unique_spec (ds_column train "label")) as [Hnd Hel].
  split; [done|]. split; [done|]. split; [done|]. split; [done|].
  split; [split|].
  - rewrite Hnum. by intros [= ->].
  - rewrite Hnum. by intros ->.
  - intros x Hx. split; [by apply label_names_getitem_large|].
    unfold difficulty_of. by rewrite label_names_getitem_large.
Qed.

Lemma num_labels_counts_train_labels_witness :
  num_labels toy_dataset = Ok 2%nat /\
  (num_labels toy_dataset = Ok (length label_names) <->
   length (unique (ds_column toy_train "label")) = 6%nat) /\
  difficulty_of (VInt 6) = Raise IndexError.
Proof.
  destruct (num_labels_counts_train_labels toy_dataset toy_train)
    as (Hnum & _ & _ & _ & Hiff & Hlarge).
  - reflexivity.
  - set_solver.
  - split; [exact Hnum|]. split; [exact Hiff|].
    apply (Hlarge 6). vm_compute. discriminate.
Defined.

(** ** The columns of the exported frame *)

(** C8, as stated, fails: on a test split with a fourth column the
    exported frame has two columns, not only [difficulty]. *)
Lemma exported_columns_counterexample :
  exists df : DataFrame,
    test_df wide_test [2; 0] = Ok df /\
    column_names df = ["difficulty"; "source"] /\
    column_names df <> ["difficulty"] /\
    to_csv df = [ [VStr "id"; VStr "difficulty"; VStr "source"];
                  [VInt 0; VStr "B1"; VStr "web"];
                  [VInt 1; VStr "A1"; VStr "book"] ].
Proof.
  eexists. split; [vm_compute; reflexivity|].
  split; [reflexivity|]. split; [discriminate|]. vm_compute. reflexivity.
Qed.

(** C8, amended.  The exported frame has an index named [id] and the
    columns of the test split other than [sentence] and [label], in
    their order: those two are dropped, [difficulty] holds the names of
    the predicted levels, and every other column is the column of the
    test split, unchanged.  When the test split has exactly the columns
    [sentence], [label] and [difficulty], the frame holds the
    [difficulty] column only. *)
Theorem exported_columns (test : Dataset) (preds : tensor1) :
  "sentence" ∈ features test ->
  "label" ∈ features test ->
  "difficulty" ∈ features test ->
  length preds = length (rows test) ->
  Forall (fun p => 0 <= p < 6) preds ->
  exists df : DataFrame,
    test_df test preds = Ok df /\
    df_index_name df = Some "id" /\
    column_names df =
      filter (fun name => name ∉ ["sentence"; "label"]) (features test) /\
    ("sentence" ∉ column_names df) /\
    ("label" ∉ column_names df) /\
    df_getitem df "difficulty" = Ok (map (fun p => VStr (level_name p)) preds) /\
    (forall name : string,
       name ∈ features test ->
       name ∉ ["sentence"; "label"; "difficulty"] ->
       df_getitem df name = Ok (ds_column test name)) /\
    (features test ≡ₚ ["sentence"; "label"; "difficulty"] ->
     column_names df = ["difficulty"]).
Proof.
  intros Hs Hl Hd Hlen Hall. exists (submitted_df test preds).
  split; [by apply test_df_ok|]. split; [done|].
  assert (column_names (submitted_df test preds) = kept_columns test) as Hnames.
  { unfold column_names, submitted_df. simpl. apply columns_of_names. }
  rewrite Hnames. split; [done|].
  split; [intros [Hn _]%list_elem_of_filter; apply Hn; set_solver|].
  split; [intros [Hn _]%list_elem_of_filter; apply Hn; set_solver|].
  split; [|split].
  - unfold df_getitem, submitted_df. simpl.
    rewrite columns_of_assoc; [by rewrite decide_True|].
    apply list_elem_of_filter. split; [set_solver|done].
  - intros name Hin Hnot. unfold df_getitem, submitted_df. simpl.
    rewrite columns_of_assoc.
    + rewrite decide_False; [done|]. set_solver.
    + apply list_elem_of_filter. split; [set_solver|done].
  - intros Hperm. apply Permutation_singleton_r. unfold kept_columns.
    by rewrite Hperm.
Qed.

Lemma exported_columns_witness :
  exists df : DataFrame,
    test_df toy_test [2; 0] = Ok df /\
    df_index_name df = Some "id" /\
    column_names df =
      filter (fun name => name ∉ ["sentence"; "label"]) (features toy_test) /\
    ("sentence" ∉ column_names df) /\
    ("label" ∉ column_names df) /\
    df_getitem df "difficulty" = Ok (map (fun p => VStr (level_name p)) [2; 0]) /\
    (forall name : string,
       name ∈ features toy_test ->
       name ∉ ["sentence"; "label"; "difficulty"] ->
       df_getitem df name = Ok (ds_column toy_test name)) /\
    (features toy_test ≡ₚ ["sentence"; "label"; "difficulty"] ->
     column_names df = ["difficulty"]).
Proof.
  apply (exported_columns toy_test [2; 0]).
  - set_solver.
  - set_solver.
  - set_solver.
  - reflexivity.
  - repeat constructor; lia.
Defined.

(** ** The three names bound from the loaded dictionary *)

(** C4 fails on the code.  The three names are bound to the values of
    the loaded dictionary by position, whatever their keys: the
    unpacking succeeds exactly when the dictionary has three values,
    and then binds the first, the second and the third.  So when the
    loader lists its splits in the order train, validation, test,
    [test_dataset] holds the validation split and [val_dataset] the
    test split, against their names and against the keyed lookups
    [dataset["test"]] and [dataset["validation"]] of the later cells;
    each name holds the split it is named after when the order is
    train, test, validation. *)
Theorem unpack_splits_is_positional (dataset : DatasetDict) :
  (forall a b c : Dataset,
     unpack_splits dataset = Ok (a, b, c) <-> dd_values dataset = [a; b; c]) /\
  (map fst dataset = ["train"; "validation"; "test"] ->
   exists train_dataset test_dataset val_dataset : Dataset,
     unpack_splits dataset = Ok (train_dataset, test_dataset, val_dataset) /\
     dd_getitem dataset "train" = Ok train_dataset /\
     dd_getitem dataset "validation" = Ok test_dataset /\
     dd_getitem dataset "test" = Ok val_dataset) /\
  (map fst dataset = ["train"; "test"; "validation"] ->
   exists train_dataset test_dataset val_dataset : Dataset,
     unpack_splits dataset = Ok (train_dataset, test_dataset, val_dataset) /\
     dd_getitem dataset "train" = Ok train_dataset /\
     dd_getitem dataset "test" = Ok test_dataset /\
     dd_getitem dataset "validation" = Ok val_dataset).
Proof.
  split; [|split].
  - intros a b c. unfold unpack_splits.
    destruct (dd_values dataset) as [|x [|y [|z [|? ?]]]]; split; try done;
      by intros [= -> -> ->].
  - intros Hkeys.
    destruct dataset as [|[k1 a] [|[k2 b] [|[k3 c] [|? ?]]]]; try discriminate.
    simpl in Hkeys. injection Hkeys as -> -> ->.
    exists a, b, c. repeat split; reflexivity.
  - intros Hkeys.
    destruct dataset as [|[k1 a] [|[k2 b] [|[k3 c] [|? ?]]]]; try discriminate.
    simpl in Hkeys. injection Hkeys as -> -> ->.
    exists a, b, c. repeat split; reflexivity.
Qed.

(** On the toy splits listed in the order train, validation, test, the
    split bound to [test_dataset] is the validation split, which is not
    the one [dataset["test"]] gives. *)
Lemma unpack_splits_is_positional_witness :
  exists train_dataset test_dataset val_dataset : Dataset,
    unpack_splits reordered_dataset = Ok (train_dataset, test_dataset, val_dataset) /\
    dd_getitem reordered_dataset "validation" = Ok test_dataset /\
    dd_getitem reordered_dataset "test" = Ok val_dataset /\
    dd_getitem reordered_dataset "test" <> Ok test_dataset /\
    dd_getitem reordered_dataset "validation" <> Ok val_dataset.
Proof.
  destruct (unpack_splits_is_positional reordered_dataset) as (_ & Hswap & _).
  destruct (Hswap eq_refl) as (tr & te & va & Hunpack & _ & Hva & Hte).
  exists tr, te, va. split; [done|]. split; [done|]. split; [done|].
  assert (length (rows te) = 1%nat) as Hlen_te
    by (vm_compute in Hva; by injection Hva as <-).
  assert (length (rows va) = 2%nat) as Hlen_va
    by (vm_compute in Hte; by injection Hte as <-).
  split; intros H.
  - rewrite Hte in H. injection H as ->. lia.
  - rewrite Hva in H. injection H as ->. lia.
Defined.

(** ** Configuration *)

Lemma train_dataloader_inv (encode : string -> list Z) (pad : Z)
    (dataset : DatasetDict) (dl : DataLoader) :
  train_dataloader encode pad dataset = Ok dl ->
  exists split : Dataset,
    dd_getitem dataset "train" = Ok split /\
    dl = {| dl_dataset := split; batch_size := 16; shuffle := true;
            collate_fn := tokenize_batch encode pad |}.
Proof.
  unfold train_dataloader. destruct (dd_getitem dataset "train") as [split|]; [|done].
  intros [= <-]. by exists split.
Qed.

Lemma val_dataloader_inv (encode : string -> list Z) (pad : Z)
    (dataset : DatasetDict) (dl : DataLoader) :
  val_dataloader encode pad dataset = Ok dl ->
  exists split : Dataset,
    dd_getitem dataset "validation" = Ok split /\
    dl = {| dl_dataset := split; batch_size := 16; shuffle := false;
            collate_fn := tokenize_batch encode pad |}.
Proof.
  unfold val_dataloader. destruct (dd_getitem dataset "validation") as [split|]; [|done].
  intros [= <-]. by exists split.
Qed.

Lemma test_dataloader_inv (encode : string -> list Z) (pad : Z)
    (dataset : DatasetDict) (dl : DataLoader) :
  test_dataloader encode pad dataset = Ok dl ->
  exists split : Dataset,
    dd_getitem dataset "test" = Ok split /\
    dl = {| dl_dataset := split; batch_size := 16; shuffle := false;
            collate_fn := tokenize_batch encode pad |}.
Proof.
  unfold test_dataloader. destruct (dd_getitem dataset "test") as [split|]; [|done].
  intros [= <-]. by exists split.
Qed.

(** C6.  The three loaders are built with a batch size of 16; the
    model is constructed with the learning rate 3e-5; early stopping
    monitors [valid/acc] in mode [max] with a patience of 4. *)
Theorem configuration_values (Model : Type)
    (LightningModel : string -> nat -> Q -> Q -> Model)
    (training_epoch : Model -> list Batch -> Model)
    (validation_epoch : Model -> list Batch -> gmap string Q)
    (encode : string -> list Z) (pad : Z) (randperm : nat -> nat -> list nat)
    (dataset : DatasetDict) (train_dl val_dl test_dl : DataLoader) (n : nat) :
  train_dataloader encode pad dataset = Ok train_dl ->
  val_dataloader encode pad dataset = Ok val_dl ->
  test_dataloader encode pad dataset = Ok test_dl ->
  batch_size train_dl = 16%nat /\
  batch_size val_dl = 16%nat /\
  batch_size test_dl = 16%nat /\
  (lr == 3 # 100000)%Q /\
  training_cell Model LightningModel training_epoch validation_epoch randperm
      n train_dl val_dl =
    ('(trainer, _) ← trainer_fit Model training_epoch validation_epoch randperm
                       (camembert_trainer Model)
                       (LightningModel "camembert-base" n (3e-5)%Q (2 # 1)%Q)
                       train_dl val_dl;
     lightning_model ← load_from_checkpoint Model
                         (mc_best_model_path Model (checkpoint Model trainer));
     mret (trainer, lightning_model)) /\
  es_monitor (early_stopping Model (camembert_trainer Model)) = "valid/acc" /\
  es_mode (early_stopping Model (camembert_trainer Model)) = Max /\
  es_patience (early_stopping Model (camembert_trainer Model)) = 4%nat.
Proof.
  intros (? & _ & ->)%train_dataloader_inv (? & _ & ->)%val_dataloader_inv
         (? & _ & ->)%test_dataloader_inv.
  repeat split; reflexivity.
Qed.

Lemma configuration_values_witness :
  exists train_dl val_dl test_dl : DataLoader,
    train_dataloader toy_encode 1 toy_dataset = Ok train_dl /\
    val_dataloader toy_encode 1 toy_dataset = Ok val_dl /\
    test_dataloader toy_encode 1 toy_dataset = Ok test_dl /\
    batch_size train_dl = 16%nat /\
    batch_size val_dl = 16%nat /\
    batch_size test_dl = 16%nat /\
    (lr == 3 # 100000)%Q.
Proof.
  do 3 eexists. split; [reflexivity|]. split; [reflexivity|]. split; [reflexivity|].
  destruct (configuration_values nat (fun _ _ _ _ => 0%nat) (fun m _ => S m)
              (fun _ _ => ∅) toy_encode 1 toy_randperm toy_dataset
              _ _ _ 2 eq_refl eq_refl eq_refl)
    as (H1 & H2 & H3 & H4 & _).
  repeat split; assumption.
Defined.

(** ** Shuffling and alignment *)


Lemma concat_sentences (encode : string -> list Z) (pad : Z)
    (groups : list (list sample)) :
  concat (map sentences (map (collated encode pad) groups))
  = map (field "sentence") (concat groups).
Proof.
  induction groups as [|g groups IH]; simpl; [done|].
  by rewrite IH, map_app.
Qed.

Lemma concat_labels (encode : string -> list Z) (pad : Z)
    (groups : list (list sample)) :
  concat (map labels (map (collated encode pad) groups))
  = map label_id (concat groups).
Proof.
  induction groups as [|g groups IH]; simpl; [done|].
  by rewrite IH, map_app.
Qed.

(** C9.  The train loader shuffles; the validation and the test loader
    do not.  For the validation and the test split, the batches
    therefore hold the rows of the split in order, and the i-th element
    of the concatenated predictions is the prediction computed for the
    i-th row of the split. *)
Theorem predictions_aligned_with_rows (Model : Type)
    (predict_step : Model -> Batch -> tensor1) (encode : string -> list Z)
    (pad : Z) (randperm : nat -> nat -> list nat) (draw : nat)
    (m : Model) (dataset : DatasetDict) (train_dl dl : DataLoader) :
  train_dataloader encode pad dataset = Ok train_dl ->
  val_dataloader encode pad dataset = Ok dl \/
    test_dataloader encode pad dataset = Ok dl ->
  Forall is_cefr_sample (rows (dl_dataset dl)) ->
  rows (dl_dataset dl) <> [] ->
  (forall b, length (predict_step m b) = length (labels b)) ->
  shuffle train_dl = true /\
  shuffle dl = false /\
  exists (batches : list Batch) (preds : tensor1),
    dl_iter randperm draw dl = Ok batches /\
    concat (map sentences batches) = ds_column (dl_dataset dl) "sentence" /\
    concat (map labels batches) = map label_id (rows (dl_dataset dl)) /\
    (ts ← trainer_predict Model predict_step randperm draw m dl; torch_cat ts)
      = Ok preds /\
    preds = concat (map (predict_step m) batches) /\
    length preds = length (rows (dl_dataset dl)) /\
    zip (rows (dl_dataset dl)) preds =
      concat (map (fun c => zip c (predict_step m (collated encode pad c)))
                  (chunks 16 (dl_dataset dl))) /\
    Forall (fun b => (0 < length (labels b) <= 16)%nat) batches /\
    forall (i : nat) (s : sample),
      rows (dl_dataset dl) !! i = Some s -> is_Some (preds !! i).
Proof.
  intros (? & _ & ->)%train_dataloader_inv Hdl Hrows Hne Hstep.
  split; [done|].
  assert (exists split, dl = {| dl_dataset := split; batch_size := 16;
                                shuffle := false;
                                collate_fn := tokenize_batch encode pad |})
    as [split ->].
  { destruct Hdl as [(split & _ & ->)%val_dataloader_inv
                    |(split & _ & ->)%test_dataloader_inv]; by exists split. }
  simpl in *. split; [done|].
  destruct (sequential_predictions Model predict_step encode pad randperm
              draw 16 m split Hrows Hne Hstep) as (Hpreds & Hn & Hzip).
  exists (map (collated encode pad) (chunks 16 split)),
         (predictions predict_step encode pad m 16 split).
  split; [by apply dl_iter_sequential|].
  split; [by rewrite concat_sentences, chunks_concat|].
  split; [by rewrite concat_labels, chunks_concat|].
  split; [done|]. split; [unfold predictions; by rewrite map_map|].
  split; [done|]. split; [done|]. split.
  - apply Forall_map.
    pose proof (chunks_nonempty 16 split) as Hnonempty.
    pose proof (chunks_sizes 16 split ltac:(lia)) as Hsizes.
    eapply Forall_impl; [apply Forall_and; split; [exact Hnonempty|exact Hsizes]|].
    intros c [Hc Hle]. rewrite collated_labels_length.
    destruct c; simpl in *; [done|lia].
  - intros i s Hi. apply lookup_lt_is_Some. rewrite Hn. by eapply lookup_lt_Some.
Qed.

Lemma predictions_aligned_with_rows_witness :
  exists train_dl dl : DataLoader,
    test_dataloader toy_encode 1 toy_dataset = Ok dl /\
    shuffle train_dl = true /\
    shuffle dl = false /\
    exists (batches : list Batch) (preds : tensor1),
      dl_iter toy_randperm 0 dl = Ok batches /\
      concat (map sentences batches) = [VStr "Bonjour"; VStr "Oui"] /\
      preds = [2; 0].
Proof.
  do 2 eexists. split; [reflexivity|].
  destruct (predictions_aligned_with_rows unit toy_predict_step toy_encode 1
              toy_randperm 0 tt toy_dataset _ _ eq_refl (or_intror eq_refl))
    as (Htrain & Hdl & batches & preds & Hiter & Hsent & _ & Hpreds & _).
  - repeat constructor.
  - discriminate.
  - apply toy_predict_step_length.
  - split; [exact Htrain|]. split; [exact Hdl|].
    exists batches, preds. split; [exact Hiter|]. split; [exact Hsent|].
    vm_compute in Hpreds. by injection Hpreds as <-.
Defined.

(** With a shuffling loader the batches follow the drawn permutation,
    not the order of the split. *)
Example shuffled_batches_follow_the_permutation :
  (batches ← dl_iter toy_randperm 0
               {| dl_dataset := toy_test; batch_size := 16; shuffle := true;
                  collate_fn := tokenize_batch toy_encode 1 |};
   mret (concat (map sentences batches)))
  = Ok [VStr "Oui"; VStr "Bonjour"].
Proof. vm_compute. reflexivity. Qed.

(** ** Training, checkpointing and reloading *)

Section BestCheckpoint.

Variable Model : Type.
Variable training_epoch : Model -> list Batch -> Model.
Variable validation_epoch : Model -> list Batch -> gmap string Q.
Variable randperm : nat -> nat -> list nat.
Variables train_dl val_dl : DataLoader.

Abbreviation step :=
  (run_epoch Model training_epoch validation_epoch randperm train_dl val_dl).







End BestCheckpoint.








(** ** Name binding *)

(** C5 fails on the code: run once in order from a fresh kernel, the
    notebook stops in its eleventh code cell, the one that builds the
    table of wrong predictions, because [np] is read there and no cell
    imports or assigns it. *)
Theorem np_is_read_unbound :
  Names.run_all = Names.Stopped 10 (NameError "np") /\
  nth 10 Names.cells [] = Names.cell_wrong_predictions /\
  (forall c, c ∈ Names.cells -> forall s, s ∈ c ->
     s <> Names.Import "np" /\
     forall targets reads, s = Names.Assign targets reads -> "np" ∉ targets).
Proof.
  split; [vm_compute; reflexivity|]. split; [reflexivity|].
  intros c Hc s Hs.
  unfold Names.cells in Hc.
  repeat (apply elem_of_cons in Hc as [->|Hc]);
    try (by apply elem_of_nil in Hc);
    repeat (apply elem_of_cons in Hs as [->|Hs]);
    try (by apply elem_of_nil in Hs);
    (split; [discriminate|]);
    intros targets reads Heq; try discriminate;
    injection Heq as <- <-; set_solver.
Qed.

(** With [import numpy as np] in the first cell, every name is bound
    before it is read and the run completes. *)
Lemma run_completes_with_numpy :
  exists env : Names.Env,
    Names.run_cells 0 Names.fresh_kernel Names.cells_with_numpy
    = Names.Completed env.
Proof. eexists. vm_compute. reflexivity. Qed.

(** * Further properties of the embedded code *)

(** ** When the collate function succeeds, and how it fails *)


(** A comprehension whose body can only raise [e] raises [e] as soon as
    one element fails. *)
Lemma comprehension_raise {A B : Type} (f : A -> result B) (e : exn) (l : list A) :
  Forall (fun a => (exists b, f a = Ok b) \/ f a = Raise e) l ->
  Exists (fun a => f a = Raise e) l ->
  comprehension f l = Raise e.
Proof.
  induction 1 as [|a l Ha Hall IH]; intros Hex; [by inversion Hex|].
  simpl. destruct Ha as [[b Hb]| ->]; [|done].
  rewrite Hb. inversion Hex as [? ? Hbad|? ? Hrest]; subst; [congruence|].
  by rewrite IH.
Qed.













(** ** The batches of a pass *)

Lemma batch_sampler_count (size : nat) (indices batch : list nat) :
  (length batch < size)%nat ->
  length (batch_sampler size batch indices)
    = ((length batch + length indices + size - 1) / size)%nat /\
  forall (i : nat) (b : list nat),
    batch_sampler size batch indices !! i = Some b ->
    (S i < length (batch_sampler size batch indices))%nat ->
    length b = size.
Proof.
  revert batch. induction indices as [|idx rest IH]; intros batch Hlt.
  - simpl. case_decide as Hpos; simpl.
    + split.
      * apply (Nat.div_unique _ _ _ (length batch - 1)); lia.
      * intros [|i] b Hb Hi; simpl in *; lia.
    + split; [|by intros i b Hb].
      rewrite Nat.div_small; lia.
  - simpl. case_decide as Hfull.
    + rewrite length_app in Hfull. simpl in Hfull.
      destruct (IH [] ltac:(simpl; lia)) as [Hcount Hsizes]. split.
      * simpl. rewrite Hcount. simpl.
        replace (length batch + S (length rest) + size - 1)%nat
          with (1 * size + (length rest + size - 1))%nat by lia.
        rewrite Nat.div_add_l by lia. lia.
      * intros [|i] b Hb Hi; simpl in *.
        -- injection Hb as <-. rewrite length_app. simpl. lia.
        -- apply (Hsizes i b Hb). lia.
    + rewrite length_app in Hfull. simpl in Hfull.
      destruct (IH (batch ++ [idx]) ltac:(rewrite length_app; simpl; lia))
        as [Hcount Hsizes].
      rewrite length_app in Hcount. simpl in Hcount. split.
      * rewrite Hcount. f_equal. lia.
      * exact Hsizes.
Qed.

(** X3.  A pass over a loader that does not shuffle yields the number
    of rows divided by the batch size, rounded up, batches; every batch
    but the last holds exactly [batch_size] samples, and no batch is
    empty or larger. *)
Theorem sequential_pass_batch_sizes (encode : string -> list Z) (pad : Z)
    (randperm : nat -> nat -> list nat) (draw size : nat) (ds : Dataset) :
  (0 < size)%nat ->
  Forall is_cefr_sample (rows ds) ->
  exists batches : list Batch,
    dl_iter randperm draw
      {| dl_dataset := ds; batch_size := size; shuffle := false;
         collate_fn := tokenize_batch encode pad |} = Ok batches /\
    length batches = ((length (rows ds) + size - 1) / size)%nat /\
    (forall (i : nat) (b : Batch),
       batches !! i = Some b -> (S i < length batches)%nat ->
       length (labels b) = size) /\
    Forall (fun b => (0 < length (labels b) <= size)%nat) batches.
Proof.
  intros Hpos Hrows. eexists. split; [by apply dl_iter_sequential|].
  destruct (batch_sampler_count size (seq 0 (length (rows ds))) []
              ltac:(simpl; lia)) as [Hcount Hsizes].
  simpl in Hcount. rewrite length_seq in Hcount.
  unfold chunks. rewrite !length_map. split; [exact Hcount|]. split.
  - intros i b Hb Hi. rewrite !map_lookup in Hb.
    destruct (batch_sampler size [] (seq 0 (length (rows ds))) !! i)
      as [idxs|] eqn:Hidxs; [|done].
    simpl in Hb. injection Hb as <-.
    rewrite collated_labels_length. unfold fetch. rewrite length_map.
    by apply (Hsizes i idxs).
  - apply Forall_map.
    eapply Forall_impl;
      [apply Forall_and; split;
         [exact (chunks_nonempty size ds)|exact (chunks_sizes size ds Hpos)]|].
    intros c [Hc Hle]. rewrite collated_labels_length.
    destruct c; simpl in *; [done|lia].
Qed.

Lemma sequential_pass_batch_sizes_witness :
  exists batches : list Batch,
    dl_iter toy_randperm 0
      {| dl_dataset := toy_train; batch_size := 2; shuffle := false;
         collate_fn := tokenize_batch toy_encode 1 |} = Ok batches /\
    length batches = 2%nat /\
    map labels batches = [[0; 1]; [0]].
Proof.
  destruct (sequential_pass_batch_sizes toy_encode 1 toy_randperm 0 2 toy_train)
    as (batches & Hiter & Hcount & _).
  - lia.
  - repeat constructor.
  - exists batches. split; [exact Hiter|]. split; [exact Hcount|].
    vm_compute in Hiter. by injection Hiter as <-.
Defined.

(** A pass over a loader that collates with [tokenize_batch], for any
    order of valid indices. *)
Lemma dl_iter_indices (encode : string -> list Z) (pad : Z)
    (randperm : nat -> nat -> list nat) (draw size : nat) (ds : Dataset) :
  Forall is_cefr_sample (rows ds) ->
  Forall (fun i => (i < length (rows ds))%nat) (randperm draw (length (rows ds))) ->
  dl_iter randperm draw
    {| dl_dataset := ds; batch_size := size; shuffle := true;
       collate_fn := tokenize_batch encode pad |}
  = Ok (map (collated encode pad)
            (map (fetch ds)
                 (batch_sampler size [] (randperm draw (length (rows ds)))))).
Proof.
  intros Hrows Hperm. unfold dl_iter, sampler. simpl.
  rewrite map_map. apply comprehension_ok.
  assert (Forall (Forall (fun i => (i < length (rows ds))%nat))
            (batch_sampler size [] (randperm draw (length (rows ds))))) as Hidx
    by (by apply batch_sampler_members).
  pose proof (batch_sampler_nonempty size [] (randperm draw (length (rows ds)))) as Hne.
  revert Hidx Hne.
  generalize (batch_sampler size [] (randperm draw (length (rows ds)))). intros batches.
  induction batches as [|b batches IH]; intros Hidx Hne; [constructor|].
  inversion Hidx; inversion Hne; subst.
  constructor; [|by apply IH].
  rewrite fetch_ok by done. rewrite bind_Ok.
  apply tokenize_batch_ok; [unfold fetch; by destruct b|by apply fetch_cefr].
Qed.

(** X4.  A pass over a shuffling loader, for a sampler that draws a
    permutation of the indices: the batches hold every row of the split
    exactly once, in the drawn order. *)
Theorem shuffled_pass_covers_every_row (encode : string -> list Z) (pad : Z)
    (randperm : nat -> nat -> list nat) (draw size : nat) (ds : Dataset) :
  Forall is_cefr_sample (rows ds) ->
  randperm draw (length (rows ds)) ≡ₚ seq 0 (length (rows ds)) ->
  exists batches : list Batch,
    dl_iter randperm draw
      {| dl_dataset := ds; batch_size := size; shuffle := true;
         collate_fn := tokenize_batch encode pad |} = Ok batches /\
    concat (map sentences batches)
      = map (field "sentence") (fetch ds (randperm draw (length (rows ds)))) /\
    concat (map sentences batches) ≡ₚ ds_column ds "sentence" /\
    concat (map labels batches) ≡ₚ map label_id (rows ds).
Proof.
  intros Hrows Hperm.
  assert (Forall (fun i => (i < length (rows ds))%nat)
            (randperm draw (length (rows ds)))) as Hvalid.
  { rewrite Hperm. apply Forall_forall. intros i Hi%elem_of_seq. lia. }
  eexists. split; [by apply dl_iter_indices|].
  assert (fetch ds (randperm draw (length (rows ds))) ≡ₚ rows ds) as Hfetch.
  { rewrite <- (fetch_all_rows ds) at 2. unfold fetch.
    by apply Permutation_map. }
  rewrite concat_sentences, concat_labels, fetch_concat, batch_sampler_concat.
  simpl. split; [done|]. split.
  - unfold ds_column. by apply Permutation_map.
  - by apply Permutation_map.
Qed.

Lemma shuffled_pass_covers_every_row_witness :
  exists batches : list Batch,
    dl_iter toy_randperm 0
      {| dl_dataset := toy_train; batch_size := 2; shuffle := true;
         collate_fn := tokenize_batch toy_encode 1 |} = Ok batches /\
    concat (map sentences batches) = [VStr "Non"; VStr "Au revoir"; VStr "Salut"] /\
    concat (map sentences batches) ≡ₚ ds_column toy_train "sentence".
Proof.
  destruct (shuffled_pass_covers_every_row toy_encode 1 toy_randperm 0 2 toy_train)
    as (batches & Hiter & Horder & Hperm & _).
  - repeat constructor.
  - unfold toy_randperm. symmetry. apply Permutation_rev.
  - exists batches. split; [exact Hiter|]. split; [exact Horder|exact Hperm].
Defined.

(** ** The number of labels and the unpacking of the splits *)

Lemma unique_from_length (seen l : list value) :
  (length (unique_from seen l) <= length l)%nat.
Proof.
  revert seen. induction l as [|v l IH]; intros seen; simpl; [lia|].
  case_decide; simpl; [specialize (IH seen)|specialize (IH (v :: seen))]; lia.
Qed.

Lemma assoc_pd_dataset_raise (dataset : DatasetDict) (split : string) (e : exn) :
  dd_getitem dataset split = Raise e -> assoc split (pd_dataset dataset) = None.
Proof.
  induction dataset as [|[k d] dataset IH]; simpl; [done|].
  destruct (decide (k = split)); [done|exact IH].
Qed.

Lemma columns_of_assoc_none (names : list string) (f : string -> list value)
    (name : string) :
  name ∉ names -> assoc name (columns_of names f) = None.
Proof.
  induction names as [|k names IH]; [done|]. intros Hnot. simpl.
  rewrite decide_False by (intros ->; apply Hnot; by left).
  apply IH. intros Hin. apply Hnot. by right.
Qed.

(** X5.  [num_labels] on any loaded dictionary: [KeyError('train')]
    without a train split, [KeyError('label')] when the train split has
    no [label] column, and otherwise a number that is at most the number
    of rows of the train split and is zero only for an empty split. *)
Theorem num_labels_cases (dataset : DatasetDict) :
  match dd_getitem dataset "train" with
  | Raise _ => num_labels dataset = Raise (KeyError (VStr "train"))
  | Ok train =>
      if decide ("label" ∈ features train) then
        exists n : nat,
          num_labels dataset = Ok n /\
          (n <= length (rows train))%nat /\
          (n = 0%nat <-> rows train = [])
      else num_labels dataset = Raise (KeyError (VStr "label"))
  end.
Proof.
  destruct (dd_getitem dataset "train") as [train|e] eqn:Htrain.
  - unfold num_labels. rewrite (assoc_pd_dataset _ _ _ Htrain).
    unfold df_getitem, to_pandas. simpl.
    change (map (fun name => (name, ds_column train name)) (features train))
      with (columns_of (features train) (ds_column train)).
    case_decide as Hlabel.
    + rewrite columns_of_assoc by done. eexists. split; [done|].
      unfold unique, ds_column. split.
      * etrans; [apply unique_from_length|]. by rewrite length_map.
      * destruct (rows train) as [|r rs]; simpl; [done|].
        repeat case_decide; simpl; split; done.
    + by rewrite columns_of_assoc_none.
  - unfold num_labels. by rewrite (assoc_pd_dataset_raise _ _ _ Htrain).
Qed.

(** X6.  The notebook needs a dictionary of exactly three splits: with
    any other number the unpacking of [dataset.values()] raises
    [ValueError], also when the train, validation and test splits are
    all there. *)
Theorem notebook_needs_three_splits (Model : Type)
    (LightningModel : string -> nat -> Q -> Q -> Model)
    (training_epoch : Model -> list Batch -> Model)
    (validation_epoch : Model -> list Batch -> gmap string Q)
    (predict_step : Model -> Batch -> tensor1)
    (encode : string -> list Z) (pad : Z) (randperm : nat -> nat -> list nat)
    (dataset : DatasetDict) :
  length dataset <> 3%nat ->
  unpack_splits dataset = Raise ValueError /\
  notebook Model LightningModel training_epoch validation_epoch predict_step
    encode pad randperm dataset = Raise ValueError.
Proof.
  intros Hlen.
  assert (unpack_splits dataset = Raise ValueError) as Hunpack.
  { unfold unpack_splits, dd_values.
    destruct dataset as [|? [|? [|? [|? ?]]]]; simpl in *; done. }
  split; [done|]. unfold notebook. by rewrite Hunpack.
Qed.

Lemma notebook_needs_three_splits_witness :
  dd_getitem (("unsupervised", toy_train) :: toy_dataset) "test" = Ok toy_test /\
  notebook nat toy_model toy_training_epoch toy_validation_epoch toy_predict_step
    toy_encode 1 toy_randperm (("unsupervised", toy_train) :: toy_dataset)
  = Raise ValueError.
Proof.
  split; [reflexivity|].
  apply (notebook_needs_three_splits nat toy_model toy_training_epoch
           toy_validation_epoch toy_predict_step toy_encode 1 toy_randperm).
  simpl. lia.
Defined.

(** ** The two label tables outside the six ids *)

(** X7.  The two lookups of a level name agree on the ids 0 to 5 and
    differ below: [ID_TO_LABEL[x]] raises [KeyError] for every other
    [x], while [label_names[x]] counts a negative [x] from the end of
    the list, so that the ids -6 to -1 silently give the names A1 to C2,
    and raises [IndexError] only below -6 and from 6 on. *)
Theorem label_lookups_outside_the_ids (x : Z) :
  (0 <= x < 6 ->
   id_to_label x = Ok (level_name x) /\
   difficulty_of (VInt x) = Ok (VStr (level_name x))) /\
  (~ 0 <= x < 6 -> id_to_label x = Raise (KeyError (VInt x))) /\
  (-6 <= x < 0 -> difficulty_of (VInt x) = Ok (VStr (level_name (x + 6)))) /\
  (x < -6 \/ 6 <= x -> difficulty_of (VInt x) = Raise IndexError).
Proof.
  split; [|split; [|split]].
  - intros Hx. split; [by apply id_to_label_ok|by apply difficulty_of_ok].
  - intros Hx. unfold id_to_label. rewrite ID_TO_LABEL_table. simpl.
    repeat (case_decide; [lia|]). done.
  - intros Hx.
    assert (x = -6 \/ x = -5 \/ x = -4 \/ x = -3 \/ x = -2 \/ x = -1)
      as [->|[->|[->|[->|[->| ->]]]]] by lia; reflexivity.
  - intros Hx. unfold difficulty_of, list_getitem. rewrite label_names_table.
    change (Z.of_nat (length ["A1"; "A2"; "B1"; "B2"; "C1"; "C2"])) with 6.
    cbv zeta. destruct (decide (x < 0)).
    + rewrite decide_False by lia. done.
    + rewrite decide_False by lia. done.
Qed.

Lemma label_lookups_outside_the_ids_witness :
  difficulty_of (VInt (-1)) = Ok (VStr "C2") /\
  id_to_label (-1) = Raise (KeyError (VInt (-1))) /\
  difficulty_of (VInt 6) = Raise IndexError.
Proof.
  destruct (label_lookups_outside_the_ids (-1)) as (_ & Hkey & Hwrap & _).
  destruct (label_lookups_outside_the_ids 6) as (_ & _ & _ & Hlarge).
  split; [apply Hwrap; lia|]. split; [apply Hkey; lia|apply Hlarge; lia].
Defined.

(** ** How the last cell fails *)

Lemma difficulty_of_cases (p : Z) :
  (exists v, difficulty_of (VInt p) = Ok v) \/ difficulty_of (VInt p) = Raise IndexError.
Proof.
  unfold difficulty_of, list_getitem.
  destruct (decide (0 <= _ < _)); [|by right].
  destruct (label_names !! _); [left; by eexists|by right].
Qed.

Lemma difficulty_of_raise (p : Z) :
  p < -6 \/ 6 <= p -> difficulty_of (VInt p) = Raise IndexError.
Proof.
  intros Hp. unfold difficulty_of, list_getitem. rewrite label_names_table.
  change (Z.of_nat (length ["A1"; "A2"; "B1"; "B2"; "C1"; "C2"])) with 6.
  cbv zeta. destruct (decide (p < 0)).
  - rewrite decide_False by lia. done.
  - rewrite decide_False by lia. done.
Qed.

(** The concatenated predictions on a non-empty well-formed split, with
    no assumption on the prediction step. *)
Lemma predict_then_cat (Model : Type) (predict_step : Model -> Batch -> tensor1)
    (encode : string -> list Z) (pad : Z) (randperm : nat -> nat -> list nat)
    (draw size : nat) (m : Model) (ds : Dataset) :
  Forall is_cefr_sample (rows ds) ->
  rows ds <> [] ->
  (preds ← trainer_predict Model predict_step randperm draw m
             {| dl_dataset := ds; batch_size := size; shuffle := false;
                collate_fn := tokenize_batch encode pad |};
   torch_cat preds) = Ok (predictions predict_step encode pad m size ds).
Proof.
  intros Hrows Hne. unfold predictions, trainer_predict.
  rewrite dl_iter_sequential by done.
  rewrite bind_Ok. unfold mret, result_ret. rewrite bind_Ok.
  rewrite map_map. unfold torch_cat.
  destruct (chunks size ds) as [|c cs] eqn:Hc; [|done].
  pose proof (chunks_concat size ds) as Hcat. rewrite Hc in Hcat. done.
Qed.

Lemma test_df_length_mismatch (test : Dataset) (preds : tensor1) :
  "label" ∈ features test ->
  length preds <> length (rows test) ->
  test_df test preds = Raise ValueError.
Proof.
  intros Hl Hlen. unfold test_df, df_setattr, has_column, column_names, to_pandas.
  simpl.
  change (map (fun name => (name, ds_column test name)) (features test))
    with (columns_of (features test) (ds_column test)).
  rewrite columns_of_names, bool_decide_eq_true_2 by done.
  rewrite decide_False; [done|]. by rewrite length_map, length_range.
Qed.

Lemma test_df_out_of_range (test : Dataset) (preds : tensor1) :
  "label" ∈ features test ->
  length preds = length (rows test) ->
  Exists (fun p => p < -6 \/ 6 <= p) preds ->
  test_df test preds = Raise IndexError.
Proof.
  intros Hl Hlen Hex. unfold test_df, to_pandas.
  change (map (fun name => (name, ds_column test name)) (features test))
    with (columns_of (features test) (ds_column test)).
  rewrite df_setattr_column; [|done|by rewrite length_map, length_range].
  rewrite bind_Ok, df_series_column by done.
  cbv beta. rewrite decide_True by done. rewrite bind_Ok.
  unfold series_apply.
  rewrite (comprehension_raise difficulty_of IndexError); [done| |].
  - apply Forall_map, Forall_forall. intros p _. apply difficulty_of_cases.
  - apply Exists_exists in Hex as (p & Hin & Hp).
    apply Exists_exists. exists (VInt p). split.
    + by apply list_elem_of_In, in_map, list_elem_of_In.
    + by apply difficulty_of_raise.
Qed.

(** X8.  The last cell writes nothing when the predictions do not fit
    the test split: a number of predictions different from the number
    of rows raises [ValueError] when the [label] column is assigned,
    and a prediction below -6 or from 6 on raises [IndexError] when the
    level names are looked up. *)
Theorem submission_failures (Model : Type)
    (predict_step : Model -> Batch -> tensor1) (encode : string -> list Z)
    (pad : Z) (randperm : nat -> nat -> list nat)
    (m : Model) (dataset : DatasetDict) (test : Dataset) :
  dd_getitem dataset "test" = Ok test ->
  rows test <> [] ->
  Forall is_cefr_sample (rows test) ->
  "label" ∈ features test ->
  (length (predictions predict_step encode pad m 16 test) <> length (rows test) ->
   submission Model predict_step encode pad randperm m dataset = Raise ValueError) /\
  (length (predictions predict_step encode pad m 16 test) = length (rows test) ->
   Exists (fun p => p < -6 \/ 6 <= p) (predictions predict_step encode pad m 16 test) ->
   submission Model predict_step encode pad randperm m dataset = Raise IndexError).
Proof.
  intros Htest Hne Hrows Hl.
  pose proof (predict_then_cat Model predict_step encode pad randperm 0 16 m test
                Hrows Hne) as Hpreds.
  assert (forall e,
            test_df test (predictions predict_step encode pad m 16 test) = Raise e ->
            submission Model predict_step encode pad randperm m dataset = Raise e)
    as Hraise.
  { intros e He. unfold submission, test_dataloader, collate.
    rewrite Htest, bind_Ok. unfold mret at 1, result_ret. rewrite bind_Ok.
    destruct (trainer_predict Model predict_step randperm 0 m _) as [ts|e'];
      [|by rewrite bind_Raise in Hpreds].
    rewrite bind_Ok in Hpreds. rewrite bind_Ok, Hpreds, !bind_Ok. by rewrite He. }
  split.
  - intros Hlen. by apply Hraise, test_df_length_mismatch.
  - intros Hlen Hex. by apply Hraise, test_df_out_of_range.
Qed.

Lemma submission_failures_witness :
  submission unit (fun _ b => map (fun z => z + 6) (labels b)) toy_encode 1
    toy_randperm tt toy_dataset = Raise IndexError /\
  submission unit (fun _ _ => [0]) toy_encode 1 toy_randperm tt toy_dataset
    = Raise ValueError.
Proof.
  split.
  - apply (submission_failures unit (fun _ b => map (fun z => z + 6) (labels b))
             toy_encode 1 toy_randperm tt toy_dataset toy_test).
    + reflexivity.
    + discriminate.
    + repeat constructor.
    + set_solver.
    + reflexivity.
    + assert (predictions (fun (_ : unit) b => map (fun z => z + 6) (labels b))
                toy_encode 1 tt 16 toy_test = [8; 6]) as -> by reflexivity.
      left. lia.
  - apply (submission_failures unit (fun _ _ => [0]) toy_encode 1 toy_randperm
             tt toy_dataset toy_test).
    + reflexivity.
    + discriminate.
    + repeat constructor.
    + set_solver.
    + assert (predictions (fun (_ : unit) (_ : Batch) => [0])
                toy_encode 1 tt 16 toy_test = [0]) as -> by reflexivity.
      simpl. lia.
Defined.

(** ** What the exported frame depends on *)

(** X9.  The sentences, labels and difficulties stored in the test
    split do not reach the exported frame: two test splits with the same
    columns, whose rows agree on every other field, give the same frame
    and the same file for the same predictions. *)
Theorem stored_fields_do_not_reach_the_file (test test' : Dataset) (preds : tensor1) :
  features test = features test' ->
  Forall2 (fun r r' : sample =>
             forall k, k ∉ ["sentence"; "label"; "difficulty"] -> r !! k = r' !! k)
          (rows test) (rows test') ->
  "sentence" ∈ features test ->
  "label" ∈ features test ->
  "difficulty" ∈ features test ->
  length preds = length (rows test) ->
  Forall (fun p => 0 <= p < 6) preds ->
  exists df : DataFrame,
    test_df test preds = Ok df /\
    test_df test' preds = Ok df /\
    to_csv <$> test_df test preds = to_csv <$> test_df test' preds.
Proof.
  intros Hfeat Hrows Hs Hl Hd Hlen Hall.
  assert (length (rows test) = length (rows test')) as Hn
    by (by eapply Forall2_length).
  assert (submitted_df test' preds = submitted_df test preds) as Heq.
  { unfold submitted_df, kept_columns. rewrite <- Hfeat, <- Hn. f_equal.
    apply columns_of_ext. intros k Hk.
    apply list_elem_of_filter in Hk as [Hnot _].
    destruct (decide (k = "difficulty")) as [->|Hk]; [done|].
    unfold ds_column. clear -Hrows Hnot Hk.
    induction Hrows as [|r r' rs rs' Hr _ IH]; simpl; [done|].
    rewrite IH. f_equal. unfold field. rewrite Hr; [done|]. set_solver. }
  exists (submitted_df test preds).
  rewrite (test_df_ok test) by done.
  rewrite (test_df_ok test'); [by rewrite Heq| | | | |done];
    by rewrite <- ?Hfeat, <- ?Hn.
Qed.

Lemma sample_of_other_fields (s1 s2 : string) (l1 l2 : Z) (d1 d2 : string)
    (k : string) :
  k ∉ ["sentence"; "label"; "difficulty"] ->
  sample_of s1 l1 d1 !! k = sample_of s2 l2 d2 !! k.
Proof.
  intros Hk. unfold sample_of.
  assert (k <> "sentence" /\ k <> "label" /\ k <> "difficulty") as (H1 & H2 & H3)
    by set_solver.
  rewrite !lookup_insert_ne by done. by rewrite !lookup_singleton_ne.
Qed.

Lemma stored_fields_do_not_reach_the_file_witness :
  exists df : DataFrame,
    test_df toy_test [2; 0] = Ok df /\
    test_df {| features := features toy_test;
               rows := [ sample_of "Bonsoir" 5 "C2"; sample_of "Non" 4 "C1" ] |}
            [2; 0] = Ok df.
Proof.
  destruct (stored_fields_do_not_reach_the_file
              {| features := features toy_test;
                 rows := [ sample_of "Bonsoir" 5 "C2"; sample_of "Non" 4 "C1" ] |}
              toy_test [2; 0])
    as (df & H1 & H2 & _).
  - reflexivity.
  - simpl. repeat constructor; apply sample_of_other_fields.
  - set_solver.
  - set_solver.
  - set_solver.
  - reflexivity.
  - repeat constructor; lia.
  - exists df. split; [exact H2|exact H1].
Defined.

(** ** How far the reloaded model is from the last epoch *)

Section Window.

Variable Model : Type.
Variable training_epoch : Model -> list Batch -> Model.
Variable validation_epoch : Model -> list Batch -> gmap string Q.
Variable randperm : nat -> nat -> list nat.
Variables train_dl val_dl : DataLoader.
Variable patience : nat.
Hypothesis patience_pos : (0 < patience)%nat.




End Window.




(** ** The confusion matrix *)

Example toy_confusion_matrix :
  hm_annot <$> plot_confusion_matrix [0; 1; 1; 7] [0; 1; 0; 1] ["A1"; "A2"]
    = Ok [[1; 0]; [1; 1]].
Proof. vm_compute. reflexivity. Qed.

Lemma elem_of_range (n : nat) (x : Z) : x ∈ range n <-> is_id n x.
Proof.
  unfold range, is_id. rewrite list_elem_of_In, in_map_iff. split.
  - intros (i & <- & Hi%in_seq). lia.
  - intros Hx. exists (Z.to_nat x). split; [lia|]. apply in_seq. lia.
Qed.

Lemma NoDup_range (n : nat) : NoDup (range n).
Proof.
  unfold range. apply NoDup_ListNoDup, Finite.Injective_map_NoDup.
  - intros i j. lia.
  - apply seq_NoDup.
Qed.

Lemma sum_Z_ext {A : Type} (f g : A -> Z) (l : list A) :
  (forall x, f x = g x) -> sum_Z (map f l) = sum_Z (map g l).
Proof. intros Hfg. induction l as [|x l IH]; simpl; [done|]. by rewrite Hfg, IH. Qed.

Lemma sum_Z_add {A : Type} (f g : A -> Z) (l : list A) :
  sum_Z (map (fun x => f x + g x) l) = sum_Z (map f l) + sum_Z (map g l).
Proof. induction l as [|x l IH]; simpl; [done|]. rewrite IH. lia. Qed.

Lemma sum_Z_zero {A : Type} (l : list A) : sum_Z (map (fun _ => 0) l) = 0.
Proof. induction l as [|x l IH]; simpl; [done|]. by rewrite IH. Qed.

(** The sum over a duplicate-free list of a function that vanishes
    everywhere but at [c]. *)
Lemma sum_Z_indicator (l : list Z) (c v : Z) (f : Z -> Z) :
  NoDup l ->
  (forall j, f j = if decide (j = c) then v else 0) ->
  sum_Z (map f l) = if decide (c ∈ l) then v else 0.
Proof.
  intros Hnd Hf. induction Hnd as [|x l Hx Hnd IH].
  - simpl. destruct (decide (c ∈ [])) as [Hin|]; [by apply elem_of_nil in Hin|done].
  - change (sum_Z (map f (x :: l))) with (f x + sum_Z (map f l)).
    rewrite Hf, IH. destruct (decide (x = c)) as [->|Hne].
    + rewrite decide_False by done. rewrite decide_True by (by left). lia.
    + destruct (decide (c ∈ l)) as [Hin|Hnot].
      * rewrite decide_True by (by right). lia.
      * rewrite decide_False; [lia|]. intros [->|]%elem_of_cons; done.
Qed.

Lemma count_pairs_cons (t p : Z) (y_true y_pred : list Z) (i j : Z) :
  count_pairs (t :: y_true) (p :: y_pred) i j
  = (if decide ((t, p) = (i, j)) then 1 else 0) + count_pairs y_true y_pred i j.
Proof.
  unfold count_pairs. simpl. rewrite filter_cons.
  destruct (decide ((t, p) = (i, j))); simpl; lia.
Qed.

Lemma count_pairs_nil_l (y_pred : list Z) (i j : Z) : count_pairs [] y_pred i j = 0.
Proof. done. Qed.

Lemma count_pairs_nil_r (y_true : list Z) (i j : Z) : count_pairs y_true [] i j = 0.
Proof. unfold count_pairs. by destruct y_true. Qed.

(** The cells of the matrix add up to the number of samples whose
    label and prediction are both among the labels of the matrix. *)
Lemma confusion_total (ls y_true y_pred : list Z) :
  NoDup ls ->
  sum_Z (map (fun i => sum_Z (map (count_pairs y_true y_pred i) ls)) ls)
  = Z.of_nat (length (filter (fun tp => tp.1 ∈ ls /\ tp.2 ∈ ls) (zip y_true y_pred))).
Proof.
  intros Hnd. revert y_pred.
  induction y_true as [|t y_true IH]; intros y_pred.
  - simpl. rewrite (sum_Z_ext _ (fun _ => 0)); [apply sum_Z_zero|].
    intros i. rewrite (sum_Z_ext _ (fun _ => 0)); [apply sum_Z_zero|done].
  - destruct y_pred as [|p y_pred].
    + simpl. rewrite (sum_Z_ext _ (fun _ => 0)); [apply sum_Z_zero|].
      intros i. rewrite (sum_Z_ext _ (fun _ => 0)); [apply sum_Z_zero|done].
    + rewrite (sum_Z_ext _
                 (fun i => (if decide (i = t)
                            then (if decide (p ∈ ls) then 1 else 0) else 0)
                           + sum_Z (map (count_pairs y_true y_pred i) ls))).
      * rewrite sum_Z_add, IH.
        rewrite (sum_Z_indicator ls t (if decide (p ∈ ls) then 1 else 0)) by done.
        simpl. rewrite filter_cons. simpl.
        destruct (decide (t ∈ ls)), (decide (p ∈ ls));
          [rewrite decide_True by done|rewrite decide_False by tauto..];
          simpl; lia.
      * intros i.
        rewrite (sum_Z_ext _ (fun j => (if decide ((t, p) = (i, j)) then 1 else 0)
                                       + count_pairs y_true y_pred i j))
          by (intros j; apply count_pairs_cons).
        rewrite sum_Z_add. f_equal.
        rewrite (sum_Z_indicator ls p (if decide (i = t) then 1 else 0));
          [destruct (decide (i = t)), (decide (p ∈ ls)); done|done|].
        intros j. destruct (decide (j = p)) as [->|], (decide (i = t)) as [->|];
          [rewrite decide_True by done|rewrite decide_False by congruence..]; done.
Qed.

(** The diagonal adds up to the number of samples predicted to be what
    they are, for a label of the matrix. *)
Lemma confusion_diagonal (ls y_true y_pred : list Z) :
  NoDup ls ->
  sum_Z (map (fun i => count_pairs y_true y_pred i i) ls)
  = Z.of_nat (length (filter (fun tp => tp.1 = tp.2 /\ tp.1 ∈ ls) (zip y_true y_pred))).
Proof.
  intros Hnd. revert y_pred.
  induction y_true as [|t y_true IH]; intros y_pred.
  - simpl. rewrite (sum_Z_ext _ (fun _ => 0)); [apply sum_Z_zero|done].
  - destruct y_pred as [|p y_pred].
    + simpl. rewrite (sum_Z_ext _ (fun _ => 0)); [apply sum_Z_zero|done].
    + rewrite (sum_Z_ext _ (fun i => (if decide ((t, p) = (i, i)) then 1 else 0)
                                     + count_pairs y_true y_pred i i))
        by (intros i; apply count_pairs_cons).
      rewrite sum_Z_add, IH.
      rewrite (sum_Z_indicator ls t (if decide (t = p) then 1 else 0));
        [|done|].
      * simpl. rewrite filter_cons. simpl.
        destruct (decide (t ∈ ls)), (decide (t = p));
          [rewrite decide_True by done|rewrite decide_False by tauto..];
          simpl; lia.
      * intros j. destruct (decide (j = t)) as [->|], (decide (t = p)) as [->|];
          [rewrite decide_True by done|rewrite decide_False by congruence..]; done.
Qed.





Lemma plot_confusion_matrix_inv (labels preds : list Z) (label_names : list string)
    (hm : Heatmap) :
  plot_confusion_matrix labels preds label_names = Ok hm ->
  length labels = length preds /\
  hm_annot hm = map (fun i => map (count_pairs labels preds i)
                                  (range (length label_names)))
                    (range (length label_names)) /\
  hm_data hm = map normalize_row (hm_annot hm).
Proof.
  unfold plot_confusion_matrix, confusion_matrix_normalized.
  destruct (confusion_matrix labels preds (range (length label_names)))
    as [m|] eqn:Hcm; [|done].
  simpl. unfold heatmap. case_decide; [|done]. intros [= <-]. simpl.
  unfold confusion_matrix in Hcm.
  case_decide as Hlen; [|done].
  destruct (range (length label_names)) as [|l ls]; [done|].
  case_decide; [done|]. by injection Hcm as <-.
Qed.

Lemma diagonal_of_table (ls : list Z) (c : Z -> Z -> Z) :
  imap (fun k row => default 0 (row !! k)) (map (fun i => map (c i) ls) ls)
  = map (fun i => c i i) ls.
Proof.
  apply list_eq. intros k. rewrite list_lookup_imap, !map_lookup.
  destruct (ls !! k) as [i|] eqn:Hk; [|done]. simpl.
  by rewrite map_lookup, Hk.
Qed.

Lemma length_filter_split {A : Type} (P : A -> Prop) `{forall x, Decision (P x)}
    (l : list A) :
  (length (filter P l) + length (filter (fun x => ~ P x) l) = length l)%nat.
Proof.
  induction l as [|x l IH]; [done|]. rewrite !filter_cons.
  destruct (decide (P x)).
  - rewrite decide_False by tauto. simpl. lia.
  - rewrite decide_True by done. simpl. lia.
Qed.

(** X14.  The numbers written in the heat map: they add up to the
    number of samples whose label and prediction are both ids of a
    level, so a sample with any other label or prediction is counted
    nowhere; the diagonal adds up to the number of those predicted to be
    what they are.  When all labels and predictions are ids of levels,
    the cells add up to the number of samples and the cells off the
    diagonal to the number of wrong predictions. *)
Theorem confusion_matrix_counts (labels preds : list Z) (label_names : list string)
    (hm : Heatmap) :
  plot_confusion_matrix labels preds label_names = Ok hm ->
  matrix_total (hm_annot hm)
    = Z.of_nat (length (filter (fun tp => is_id (length label_names) tp.1 /\
                                          is_id (length label_names) tp.2)
                               (zip labels preds))) /\
  matrix_trace (hm_annot hm)
    = Z.of_nat (length (filter (fun tp => tp.1 = tp.2 /\
                                          is_id (length label_names) tp.1)
                               (zip labels preds))) /\
  (Forall (is_id (length label_names)) labels ->
   Forall (is_id (length label_names)) preds ->
   matrix_total (hm_annot hm) = Z.of_nat (length labels) /\
   matrix_total (hm_annot hm) - matrix_trace (hm_annot hm)
     = Z.of_nat (length (filter (fun tp => tp.1 <> tp.2) (zip labels preds)))).
Proof.
  intros (Hlen & Hannot & _)%plot_confusion_matrix_inv. rewrite Hannot.
  pose proof (NoDup_range (length label_names)) as Hnd.
  assert (matrix_total
            (map (fun i => map (count_pairs labels preds i)
                               (range (length label_names)))
                 (range (length label_names)))
          = Z.of_nat (length (filter (fun tp => is_id (length label_names) tp.1 /\
                                                is_id (length label_names) tp.2)
                                     (zip labels preds)))) as Htotal.
  { unfold matrix_total. rewrite map_map, (confusion_total _ _ _ Hnd).
    do 2 f_equal. apply list_filter_iff. intros tp.
    by rewrite !elem_of_range. }
  assert (matrix_trace
            (map (fun i => map (count_pairs labels preds i)
                               (range (length label_names)))
                 (range (length label_names)))
          = Z.of_nat (length (filter (fun tp => tp.1 = tp.2 /\
                                                is_id (length label_names) tp.1)
                                     (zip labels preds)))) as Htrace.
  { unfold matrix_trace. rewrite diagonal_of_table, (confusion_diagonal _ _ _ Hnd).
    do 2 f_equal. apply list_filter_iff. intros tp.
    by rewrite !elem_of_range. }
  split; [done|]. split; [done|]. intros Hl Hp.
  assert (Forall (fun tp : Z * Z => is_id (length label_names) tp.1 /\
                                    is_id (length label_names) tp.2)
                 (zip labels preds)) as Hall.
  { clear -Hl Hp. revert preds Hp.
    induction Hl as [|t labels Ht _ IH]; intros preds Hp; [constructor|].
    destruct Hp as [|p preds Hp Hps]; [constructor|].
    simpl. constructor; [done|by apply IH]. }
  rewrite Htotal, Htrace.
  assert (filter (fun tp : Z * Z => is_id (length label_names) tp.1 /\
                                    is_id (length label_names) tp.2)
                 (zip labels preds) = zip labels preds) as ->.
  { clear -Hall. induction Hall as [|tp l Htp _ IH]; [done|].
    rewrite filter_cons, decide_True by done. by rewrite IH. }
  assert (filter (fun tp : Z * Z => tp.1 = tp.2 /\ is_id (length label_names) tp.1)
                 (zip labels preds)
          = filter (fun tp : Z * Z => tp.1 = tp.2) (zip labels preds)) as ->.
  { clear -Hall. induction Hall as [|tp l [Htp _] _ IH]; [done|].
    rewrite !filter_cons, IH. destruct (decide (tp.1 = tp.2)).
    - by rewrite decide_True.
    - by rewrite decide_False by tauto. }
  pose proof (length_filter_split (fun tp : Z * Z => tp.1 = tp.2) (zip labels preds))
    as Hsplit.
  rewrite length_zip_with, <- Hlen, Nat.min_id in *. split; [done|]. lia.
Qed.

Lemma confusion_matrix_counts_witness :
  exists hm : Heatmap,
    plot_confusion_matrix [0; 1; 1; 2] [0; 1; 0; 1] ["A1"; "A2"; "B1"] = Ok hm /\
    hm_annot hm = [[1; 0; 0]; [1; 1; 0]; [0; 1; 0]] /\
    matrix_total (hm_annot hm) = 4 /\
    matrix_total (hm_annot hm) - matrix_trace (hm_annot hm) = 2.
Proof.
  eexists. split; [vm_compute; reflexivity|]. split; [reflexivity|].
  destruct (confusion_matrix_counts [0; 1; 1; 2] [0; 1; 0; 1] ["A1"; "A2"; "B1"]
              _ eq_refl) as (_ & _ & Hall).
  destruct Hall as [Htotal Hwrong].
  - repeat constructor; unfold is_id; simpl; lia.
  - repeat constructor; unfold is_id; simpl; lia.
  - split; [exact Htotal|exact Hwrong].
Defined.
